(** * The blind-token server front end (server/main.go)

    A shallow embedding of the request handler [handle], the accept loop of
    [ListenAndServe], the configuration loader [loadConfigFile] and the
    start-up sequence of [main].

    The protocol engine itself (package [btd], package [crypto]) and Go's
    standard library are collaborators of this file: they appear as the
    fields of an interface record [Env], and every statement about the
    server is made for an arbitrary implementation of that interface. *)

From Stdlib Require Import ZArith List String Ascii Lia Bool.
From Stdlib.Strings Require Import Byte.
From Stdlib Require Import DecimalString.
Import ListNotations.
Local Open Scope string_scope.
Local Open Scope Z_scope.

Set Implicit Arguments.

(* ================================================================== *)
(** ** Go values *)
(* ================================================================== *)

(** A Go [[]byte]. *)
Definition bytes := list byte.

(** The conversion [[]byte(s)]. *)
Definition bytes_of_string (s : string) : bytes := list_byte_of_string s.

(** [len(b)] as a Go [int]. *)
Definition len {A : Type} (l : list A) : Z := Z.of_nat (List.length l).

(** Go [error] values.  [errorString] is what [errors.New] builds (and
    stands for every error that is not a [*net.OpError]); [OpError] is a
    [*net.OpError] with its [Op] description and the wrapped [Err]. *)
Inductive error : Type :=
| errorString (s : string)
| OpError (Op : string) (Err : error).

(** The method [Error()]. *)
Fixpoint Error (e : error) : string :=
  match e with
  | errorString s => s
  | OpError op inner => op ++ ": " ++ Error inner
  end.

(** A Go function result [(T, error)]. *)
Inductive result (A : Type) : Type :=
| Ok (a : A)
| Err (e : error).
Arguments Ok {A} a.
Arguments Err {A} e.

(** [time.Duration] counts nanoseconds. *)
Definition Millisecond : Z := 1000000.
Definition Second : Z := 1000 * Millisecond.
Definition Minute : Z := 60 * Second.

(** The double-quote character, for the format strings that contain it. *)
Definition dquote : string := String (ascii_of_nat 34) EmptyString.

(** [%d] of an [int]. *)
Definition itoa (z : Z) : string := NilZero.string_of_int (Z.to_int z).

(* ================================================================== *)
(** ** Package-level variables of main.go *)
(* ================================================================== *)

Definition Version : string := "dev".
Definition maxBackoffDelay : Z := 1 * Second.
Definition maxRequestSize : Z := 20 * 1024.

Definition ErrEmptyKeyPath : error := errorString "key file path is empty".
Definition ErrNoSecretKey : error :=
  errorString "server config does not contain a key".
Definition ErrRequestTooLarge : error :=
  errorString "request too large to process".
Definition ErrUnrecognizedRequest : error :=
  errorString "received unrecognized request type".
Definition ErrEmptyCommPath : error :=
  errorString "no commitment file path specified".

(* ================================================================== *)
(** ** The TCP connection *)
(* ================================================================== *)

(** How the peer's byte stream ends when the server keeps reading: the
    peer closed its side ([AtEOF]) or [Read] reports an error, which for a
    peer that falls silent is the read deadline's time-out. *)
Inductive ReadEnd : Type :=
| AtEOF
| ReadFails (e : error).

(** A [*net.TCPConn]: the bytes still to be read and how they end, the
    bytes written so far, and the options set on the connection. *)
Record Conn : Type := mkConn {
  incoming : bytes;
  rd_end : ReadEnd;
  written : bytes;
  read_deadline : option Z;
  keep_alive : option Z;
  closed : bool
}.

Definition conn_set_incoming (c : Conn) (b : bytes) : Conn :=
  mkConn b (rd_end c) (written c) (read_deadline c) (keep_alive c) (closed c).

(** [conn.SetReadDeadline(time.Now().Add(d))] *)
Definition SetReadDeadline (d : Z) (c : Conn) : Conn :=
  mkConn (incoming c) (rd_end c) (written c) (Some d) (keep_alive c) (closed c).

(** [conn.SetKeepAlive(true); conn.SetKeepAlivePeriod(d)] *)
Definition SetKeepAlive (d : Z) (c : Conn) : Conn :=
  mkConn (incoming c) (rd_end c) (written c) (read_deadline c) (Some d) (closed c).

(** [conn.Write(b)] *)
Definition conn_Write (b : bytes) (c : Conn) : Conn :=
  mkConn (incoming c) (rd_end c) (written c ++ b)%list (read_deadline c)
         (keep_alive c) (closed c).

(** [conn.Close()] *)
Definition conn_Close (c : Conn) : Conn :=
  mkConn (incoming c) (rd_end c) (written c) (read_deadline c) (keep_alive c) true.

(** [io.Copy(buf, io.LimitReader(conn, n))] into a fresh buffer.

    The limited reader hands out at most [n] bytes and then reports end of
    file without touching the connection again; [io.Copy] turns end of
    file into a nil error.  So with [n] or more bytes on the wire the
    buffer holds the first [n] of them and the error is nil; with fewer,
    the buffer holds all of them and the error is the one that ended the
    stream, if any. *)
Definition io_Copy_LimitReader (n : Z) (c : Conn)
  : (bytes * option error) * Conn :=
  if n <=? len (incoming c) then
    ((firstn (Z.to_nat n) (incoming c), None),
     conn_set_incoming c (skipn (Z.to_nat n) (incoming c)))
  else
    ((incoming c,
      match rd_end c with AtEOF => None | ReadFails e => Some e end),
     conn_set_incoming c []).

(* ================================================================== *)
(** ** Types of package btd used by the handler *)
(* ================================================================== *)

(** Modelled from the spec: the declarations of [btd.BlindTokenRequest],
    [btd.BlindTokenRequestWrapper], [btd.ISSUE] and [btd.REDEEM] are not
    part of the sources at hand.  The envelope carries the inner request
    payload and the binding fields host and path; the inner payload
    carries a discriminator selecting Issue or Redeem and its contents. *)
Record BlindTokenRequestWrapper : Type := mkWrapper {
  Request : bytes;
  Host : string;
  Path : string
}.

Record BlindTokenRequest : Type := mkRequest {
  Type_ : string;
  Contents : list bytes
}.

Definition ISSUE : string := "Issue".
Definition REDEEM : string := "Redeem".

(* ================================================================== *)
(** ** The server structure *)
(* ================================================================== *)

Record Server (Point : Type) : Type := mkServer {
  BindAddress : string;
  ListenPort : Z;
  MetricsPort : Z;
  MaxTokens : Z;
  KeyFilePath : string;
  CommFilePath : string;
  keys : list bytes;
  G : option Point;
  H : option Point
}.
Arguments mkServer {Point}.

Definition DefaultServer {Point : Type} : Server Point :=
  mkServer "127.0.0.1" 2416 2417 100 "" "" [] None None.

(** The prometheus counters touched by main.go. *)
Inductive Counter : Type :=
| CounterConnections
| CounterConnErrors
| CounterJsonError
| CounterIssueTotal
| CounterIssueError
| CounterRedeemTotal
| CounterRedeemError
| CounterUnknownRequestType.

(** What the process does to the world outside a connection, in order:
    counter increments, log lines, sleeps, and the calls into package
    btd with the arguments they receive. *)
Inductive Event (Point : Type) : Type :=
| Inc (c : Counter)
| Printf (line : string)
| Sleep (d : Z)
| MetricsListen (addr : string)
| CallIssue (req : BlindTokenRequest) (key : bytes)
            (g h : option Point) (maxTokens : Z)
| CallRedeem (req : BlindTokenRequest) (host path : string)
             (ks : list bytes).
Arguments Inc {Point}.
Arguments Printf {Point}.
Arguments Sleep {Point}.
Arguments MetricsListen {Point}.
Arguments CallRedeem {Point}.

(** The handlers of package btd receive the connection and references to
    the key material: the slice [c.keys[0]] shares its bytes with the
    server, [c.G] and [c.H] are pointers, and [c.keys] shares its
    elements.  A call therefore yields, besides its error, the
    connection and the referenced objects as the call leaves them. *)
Record IssueResult (Point : Type) : Type := mkIssueResult {
  ir_err : option error;
  ir_conn : Conn;
  ir_key : bytes;
  ir_G : option Point;
  ir_H : option Point
}.

Record RedeemResult : Type := mkRedeemResult {
  rr_err : option error;
  rr_conn : Conn;
  rr_keys : list bytes
}.

(** What a callee holding a copy of the slice header [old] can do to the
    server's slice: replace elements, never change the length. *)
Fixpoint overwrite (old new : list bytes) : list bytes :=
  match old, new with
  | [], _ => []
  | o :: os, [] => o :: os
  | _ :: os, n :: ns => n :: overwrite os ns
  end.

(* ================================================================== *)
(** ** The collaborators *)
(* ================================================================== *)

(** Everything main.go calls and does not define: the JSON decoder at
    the two types it is used at, the two handlers of package btd, file
    access, the key and commitment parsers of package crypto, the curve
    operations behind the commitment check, and the network set-up. *)
Record Env : Type := mkEnv {
  Point : Type;
  (* encoding/json *)
  json_Unmarshal_Wrapper : bytes -> result BlindTokenRequestWrapper;
  json_Unmarshal_Request : bytes -> result BlindTokenRequest;
  json_checkValid : bytes -> option error;
  (* package btd *)
  HandleIssue : Conn -> BlindTokenRequest -> bytes ->
                option Point -> option Point -> Z -> IssueResult Point;
  HandleRedeem : Conn -> BlindTokenRequest -> string -> string ->
                 list bytes -> RedeemResult;
  (* io/ioutil and package crypto *)
  ioutil_ReadFile : string -> result bytes;
  ParseKeyFile : string -> result (list bytes);
  ParseCommitmentFile : string -> result (bytes * bytes);
  unmarshalPoint : bytes -> result Point;
  scalarMult : bytes -> Point -> Point;
  Point_eqb : Point -> Point -> bool;
  Point_eqb_eq : forall p q, Point_eqb p q = true <-> p = q;
  (* package net *)
  net_ResolveTCPAddr : string -> result string;
  net_ListenTCP : string -> option error
}.

(* ================================================================== *)
(** ** A monad for the body of [handle] *)
(* ================================================================== *)

(** The state a call of [handle] works on: the server it is a method of,
    its connection, and the events it has caused. *)
Record HState (P : Type) : Type := mkHState {
  h_srv : Server P;
  h_conn : Conn;
  h_trace : list (Event P)
}.
Arguments mkHState {P}.

(** A statement either falls through with a value, leaves the function
    by [return err], or panics. *)
Inductive res (A : Type) : Type :=
| Val (a : A)
| Return (e : option error)
| Panic.
Arguments Val {A} a.
Arguments Return {A} e.
Arguments Panic {A}.

Definition M (P A : Type) : Type := HState P -> res A * HState P.

Definition ret {P A : Type} (a : A) : M P A := fun s => (Val a, s).

Definition bind {P A B : Type} (m : M P A) (k : A -> M P B) : M P B :=
  fun s =>
    match m s with
    | (Val a, s') => k a s'
    | (Return e, s') => (Return e, s')
    | (Panic, s') => (Panic, s')
    end.

Declare Scope go_scope.
Delimit Scope go_scope with go.
Notation "x <- m ;; k" := (bind m (fun x => k))
  (at level 61, m at next level, right associativity) : go_scope.
Notation "m ;; k" := (bind m (fun _ => k))
  (at level 61, right associativity) : go_scope.

(** [return err] *)
Definition return_ {P A : Type} (e : option error) : M P A :=
  fun s => (Return e, s).

(** A run-time panic. *)
Definition panic {P A : Type} : M P A := fun s => (Panic, s).

Definition emit {P : Type} (ev : Event P) : M P unit :=
  fun s => (Val tt, mkHState (h_srv s) (h_conn s) (h_trace s ++ [ev])).

(** [metrics.CounterX.Inc()] *)
Definition inc {P : Type} (c : Counter) : M P unit := emit (Inc c).

Definition on_conn {P : Type} (f : Conn -> Conn) : M P unit :=
  fun s => (Val tt, mkHState (h_srv s) (f (h_conn s)) (h_trace s)).

Definition get_srv {P : Type} : M P (Server P) := fun s => (Val (h_srv s), s).

(** How a method call ends. *)
Inductive Outcome : Type :=
| Returned (e : option error)
| Panicked.

Definition run {P : Type} (m : M P unit) (s : HState P) : Outcome * HState P :=
  match m s with
  | (Val _, s') => (Returned None, s')
  | (Return e, s') => (Returned e, s')
  | (Panic, s') => (Panicked, s')
  end.

(* ================================================================== *)
(** ** [handle] *)
(* ================================================================== *)

Section Handle.
Context (E : Env).
Local Open Scope go_scope.

Local Abbreviation P := (Point E).

(** [_, err := io.Copy(buf, io.LimitReader(conn, maxRequestSize))] *)
Definition readRequest : M P (bytes * option error) :=
  fun s =>
    let '(r, c) := io_Copy_LimitReader maxRequestSize (h_conn s) in
    (Val r, mkHState (h_srv s) c (h_trace s)).

(** The test of line 82:
    [opErr, ok := err.( *net.OpError ); ok && opErr.Err.Error() == "i/o timeout" && buf.Len() > 0] *)
Definition timeout_with_data (e : error) (buf : bytes) : bool :=
  match e with
  | OpError _ inner => String.eqb (Error inner) "i/o timeout" && (0 <? len buf)
  | errorString _ => false
  end.

(** [err = json.Unmarshal(b, &v); if err != nil { metrics.CounterJsonError.Inc(); return err }] *)
Definition unmarshal_or_return {A : Type} (r : result A) : M P A :=
  match r with
  | Ok v => ret v
  | Err e => inc CounterJsonError ;; return_ (Some e)
  end.

(** [c.keys[0]], which panics on an empty slice. *)
Definition keys_0 : M P bytes :=
  c <- get_srv ;;
  match keys c with
  | k :: _ => ret k
  | [] => panic
  end.

(** The server after a call that was handed [c.keys[0]], [c.G] and [c.H]:
    the fields of the structure are as before, the bytes of the first key
    and the two points are as the callee left them. *)
Definition srv_after_issue (c : Server P) (r : IssueResult P) : Server P :=
  mkServer (BindAddress c) (ListenPort c) (MetricsPort c) (MaxTokens c)
           (KeyFilePath c) (CommFilePath c)
           (ir_key r :: tl (keys c)) (ir_G r) (ir_H r).

(** The server after a call that was handed [c.keys]. *)
Definition srv_after_redeem (c : Server P) (r : RedeemResult) : Server P :=
  mkServer (BindAddress c) (ListenPort c) (MetricsPort c) (MaxTokens c)
           (KeyFilePath c) (CommFilePath c)
           (overwrite (keys c) (rr_keys r)) (G c) (H c).

(** [btd.HandleIssue(conn, request, c.keys[0], c.G, c.H, c.MaxTokens)]:
    the call is recorded with its arguments; the connection, the bytes
    of the first key and the two points are left as the callee leaves
    them. *)
Definition call_HandleIssue (request : BlindTokenRequest) (k0 : bytes)
  : M P (option error) :=
  fun s =>
    let c := h_srv s in
    let r := HandleIssue E (h_conn s) request k0 (G c) (H c) (MaxTokens c) in
    (Val (ir_err r),
     mkHState (srv_after_issue c r) (ir_conn r)
       (h_trace s ++ [CallIssue request k0 (G c) (H c) (MaxTokens c)])).

(** [btd.HandleRedeem(conn, request, wrapped.Host, wrapped.Path, c.keys)] *)
Definition call_HandleRedeem (request : BlindTokenRequest) (host path : string)
  : M P (option error) :=
  fun s =>
    let c := h_srv s in
    let r := HandleRedeem E (h_conn s) request host path (keys c) in
    (Val (rr_err r),
     mkHState (srv_after_redeem c r) (rr_conn r)
       (h_trace s ++ [CallRedeem request host path (keys c)])).

(** Lines 90 to 127: decode the envelope and the inner request, then
    dispatch on the request type. *)
Definition processRequest (buf : bytes) : M P unit :=
  wrapped <- unmarshal_or_return (json_Unmarshal_Wrapper E buf) ;;
  request <- unmarshal_or_return (json_Unmarshal_Request E (Request wrapped)) ;;
  if String.eqb (Type_ request) ISSUE then
    inc CounterIssueTotal ;;
    k0 <- keys_0 ;;
    err <- call_HandleIssue request k0 ;;
    match err with
    | Some e => inc CounterIssueError ;; return_ (Some e)
    | None => return_ None
    end
  else if String.eqb (Type_ request) REDEEM then
    inc CounterRedeemTotal ;;
    err <- call_HandleRedeem request (Host wrapped) (Path wrapped) ;;
    match err with
    | Some e =>
        inc CounterRedeemError ;;
        on_conn (conn_Write (bytes_of_string (Error e))) ;;
        return_ (Some e)
    | None => return_ None
    end
  else
    emit (Printf ("unrecognized request type " ++ dquote
                    ++ Type_ request ++ dquote)) ;;
    inc CounterUnknownRequestType ;;
    return_ (Some ErrUnrecognizedRequest).

(** Lines 71 to 88: count the connection, set the read deadline, read
    at most [maxRequestSize] bytes, and give up on a read error unless
    it is a time-out that left something in the buffer. *)
Definition handle_body : M P unit :=
  inc CounterConnections ;;
  on_conn (SetReadDeadline (100 * Millisecond)) ;;
  r <- readRequest ;;
  match snd r with
  | Some e =>
      if timeout_with_data e (fst r) then ret tt
      else inc CounterConnErrors ;; return_ (Some e)
  | None => ret tt
  end ;;
  processRequest (fst r).

Definition handle (s : HState P) : Outcome * HState P := run handle_body s.

End Handle.

(* ================================================================== *)
(** ** [loadConfigFile], [loadKeys], [ListenAndServe] and [main] *)
(* ================================================================== *)

(** The outcome of [listener.AcceptTCP()]: a connection, or an error
    together with what its [Temporary()] method answers. *)
Inductive Accept : Type :=
| Accepted (c : Conn)
| AcceptFails (e : error) (temporary : bool).

(** The listening process: the server, the events so far, the current
    back-off delay and the connections it is done with. *)
Record Process (P : Type) : Type := mkProcess {
  p_srv : Server P;
  p_trace : list (Event P);
  p_backoff : Z;
  p_done : list Conn
}.
Arguments mkProcess {P}.

(** Where [ListenAndServe] stands after the given accepts: it returned an
    error, it is back at [AcceptTCP], or a panic took the process down. *)
Inductive Served (P : Type) : Type :=
| ReturnedErr (e : error)
| Running (p : Process P)
| Crashed (p : Process P).
Arguments ReturnedErr {P} e.

(** How [main] ends, or that it does not. *)
Inductive Exit (P : Type) : Type :=
| Fatal (e : error)
| Usage
| StartupPanic
| Serving (p : Process P)
| ServingCrashed (p : Process P).
Arguments Fatal {P} e.
Arguments Usage {P}.
Arguments StartupPanic {P}.

(** The command line after [flag.Parse()]; an option that is not given
    keeps the default of its declaration. *)
Record Flags : Type := mkFlags {
  flag_config : string;
  flag_addr : string;
  flag_key : string;
  flag_comm : string;
  flag_p : Z;
  flag_m : Z;
  flag_maxtokens : Z
}.

Definition noFlags : Flags := mkFlags "" "127.0.0.1" "" "" 2416 2417 100.

Section Startup.
Context (E : Env).
Local Abbreviation P := (Point E).

(** [json.Unmarshal(data, conf)] with [conf] of type [Server], not
    [*Server]: encoding/json checks the syntax of [data] and then
    refuses every target that is not a pointer with an
    [InvalidUnmarshalError]; the target is never written. *)
Definition json_Unmarshal_Server_value (data : bytes) (conf : Server P)
  : option error :=
  match json_checkValid E data with
  | Some e => Some e
  | None => Some (errorString "json: Unmarshal(non-pointer main.Server)")
  end.

Definition loadConfigFile (filePath : string) : Server P * option error :=
  let conf := DefaultServer in
  match ioutil_ReadFile E filePath with
  | Err e => (conf, Some e)
  | Ok data =>
      match json_Unmarshal_Server_value data conf with
      | Some e => (conf, Some e)
      | None => (conf, None)
      end
  end.

Definition set_keys (c : Server P) (ks : list bytes) : Server P :=
  mkServer (BindAddress c) (ListenPort c) (MetricsPort c) (MaxTokens c)
           (KeyFilePath c) (CommFilePath c) ks (G c) (H c).

Definition set_GH (c : Server P) (g h : option P) : Server P :=
  mkServer (BindAddress c) (ListenPort c) (MetricsPort c) (MaxTokens c)
           (KeyFilePath c) (CommFilePath c) (keys c) g h.

Definition loadKeys (c : Server P) : Server P * option error :=
  if String.eqb (KeyFilePath c) "" then (c, Some ErrEmptyKeyPath)
  else if String.eqb (CommFilePath c) "" then (c, Some ErrEmptyCommPath)
  else
    match ParseKeyFile E (KeyFilePath c) with
    | Err e => (c, Some e)
    | Ok ks => (set_keys c ks, None)
    end.

Definition ErrCommitmentMismatch : error := errorString "CommitmentMismatch".

(** Modelled from the spec: [crypto.RetrieveCommPoints] is not part of
    the sources at hand.  Given the encoded commitment points and the
    primary scalar k0 it decodes G and H, computes k0*G and compares it
    to H (point equality); on mismatch it fails with
    CommitmentMismatch. *)
Definition RetrieveCommPoints (GBytes HBytes key : bytes) : result (P * P) :=
  match unmarshalPoint E GBytes with
  | Err e => Err e
  | Ok g =>
      match unmarshalPoint E HBytes with
      | Err e => Err e
      | Ok h =>
          if Point_eqb E (scalarMult E key g) h then Ok (g, h)
          else Err ErrCommitmentMismatch
      end
  end.

(** One turn of the [for] loop of [ListenAndServe].  The goroutine
    started for a connection is run to completion on the spot: it
    calls [handle], hands the result to the logging goroutine, which
    prints it unless it is nil, and closes the connection.  A panic in
    [handle] ends the process. *)
Definition serve (p : Process P) (a : Accept) : Served P :=
  match a with
  | AcceptFails e temporary =>
      let sleeping :=
        match e with
        | OpError _ _ => temporary
        | errorString _ => false
        end in
      let d := if maxBackoffDelay <? p_backoff p
               then maxBackoffDelay else p_backoff p in
      Running
        (mkProcess (p_srv p)
           (p_trace p
              ++ (if sleeping then [Sleep d] else [])
              ++ [Inc CounterConnErrors; Printf (Error e)])%list
           (if sleeping then 2 * d else p_backoff p)
           (p_done p))
  | Accepted tcpConn =>
      let c := SetKeepAlive (1 * Minute) tcpConn in
      match handle E (mkHState (p_srv p) c (p_trace p)) with
      | (Returned err, s) =>
          Running
            (mkProcess (h_srv s)
               (h_trace s
                  ++ match err with
                     | Some e => [Printf (Error e)]
                     | None => []
                     end)%list
               (1 * Millisecond)
               (p_done p ++ [conn_Close (h_conn s)])%list)
      | (Panicked, s) =>
          Crashed (mkProcess (h_srv s) (h_trace s) (1 * Millisecond) (p_done p))
      end
  end.

(** The loop over the connections that arrive. *)
Fixpoint acceptLoop (p : Process P) (accepts : list Accept) : Served P :=
  match accepts with
  | [] => Running p
  | a :: rest =>
      match serve p a with
      | Running p' => acceptLoop p' rest
      | stopped => stopped
      end
  end.

Definition ListenAndServe (c : Server P) (accepts : list Accept) : Served P :=
  if len (keys c) =? 0 then ReturnedErr ErrNoSecretKey
  else
    let addr := BindAddress c ++ ":" ++ itoa (ListenPort c) in
    match net_ResolveTCPAddr E addr with
    | Err e => ReturnedErr e
    | Ok tcpAddr =>
        match net_ListenTCP E tcpAddr with
        | Some e => ReturnedErr e
        | None =>
            let metricsAddr := BindAddress c ++ ":" ++ itoa (MetricsPort c) in
            acceptLoop
              (mkProcess c
                 [Printf ("blindsigmgmt starting, version: " ++ Version);
                  Printf ("listening on " ++ addr);
                  MetricsListen metricsAddr]
                 (1 * Millisecond) [])
              accepts
        end
    end.

(** [srv := *DefaultServer] after the flag variables bound to its
    fields have been set by [flag.Parse()]. *)
Definition server_of_flags (f : Flags) : Server P :=
  mkServer (flag_addr f) (flag_p f) (flag_m f) (flag_maxtokens f)
           (flag_key f) (flag_comm f) (keys (@DefaultServer P))
           (G (@DefaultServer P)) (H (@DefaultServer P)).

(** [main], from the parsed command line to the accept loop. *)
Definition main (f : Flags) (accepts : list Accept) : Exit P :=
  let srv : Server P := server_of_flags f in
  let configFile := flag_config f in
  let loaded :=
    if negb (String.eqb configFile "") then loadConfigFile configFile
    else (srv, None) in
  match loaded with
  | (_, Some e) => Fatal e
  | (srv, None) =>
      if String.eqb configFile ""
         && (String.eqb (KeyFilePath srv) "" || String.eqb (CommFilePath srv) "")
      then Usage
      else
        match loadKeys srv with
        | (_, Some e) => Fatal e
        | (srv, None) =>
            match ParseCommitmentFile E (CommFilePath srv) with
            | Err e => Fatal e
            | Ok (GBytes, HBytes) =>
                match keys srv with
                | [] => StartupPanic
                | k0 :: _ =>
                    match RetrieveCommPoints GBytes HBytes k0 with
                    | Err e => Fatal e
                    | Ok (g, h) =>
                        match ListenAndServe (set_GH srv (Some g) (Some h)) accepts with
                        | ReturnedErr e => Fatal e
                        | Running p => Serving p
                        | Crashed p => ServingCrashed p
                        end
                    end
                end
            end
        end
  end.

End Startup.

(* ================================================================== *)
(** ** Observations used in the statements *)
(* ================================================================== *)

(** The buffer [handle] decodes: what line 79 reads from the connection. *)
Definition request_bytes (c : Conn) : bytes :=
  fst (fst (io_Copy_LimitReader maxRequestSize c)).

(** The error line 79 leaves in [err]. *)
Definition read_error (c : Conn) : option error :=
  snd (fst (io_Copy_LimitReader maxRequestSize c)).

(** The connection as line 79 leaves it, the read deadline being set. *)
Definition conn_after_read (c : Conn) : Conn :=
  snd (io_Copy_LimitReader maxRequestSize (SetReadDeadline (100 * Millisecond) c)).

(** The state in which [handle] starts to decode: the connection counted,
    its deadline set and the request read off it. *)
Definition after_read {P : Type} (s : HState P) : HState P :=
  mkHState (h_srv s) (conn_after_read (h_conn s))
           (h_trace s ++ [Inc CounterConnections]).

Definition add_events {P : Type} (s : HState P) (evs : list (Event P)) : HState P :=
  mkHState (h_srv s) (h_conn s) (h_trace s ++ evs).

(** Whether [handle] goes on to decode after the read of line 79: the
    error is nil, or the test of line 82 holds. *)
Definition read_proceeds (c : Conn) : bool :=
  match read_error c with
  | None => true
  | Some e => timeout_with_data e (request_bytes c)
  end.

(** The connection [c] with its stream ending as [e] says. *)
Definition set_rd_end (c : Conn) (e : ReadEnd) : Conn :=
  mkConn (incoming c) e (written c) (read_deadline c) (keep_alive c) (closed c).

(** The calls into package btd among the events. *)
Definition is_call {P : Type} (ev : Event P) : bool :=
  match ev with
  | CallIssue _ _ _ _ _ => true
  | CallRedeem _ _ _ _ => true
  | _ => false
  end.

Definition btd_calls {P : Type} (tr : list (Event P)) : list (Event P) :=
  filter is_call tr.

(** A request is rejected without being processed: [handle] returns an
    error and has made no call into package btd. *)
Definition rejected_without_processing (E : Env) (srv : Server (Point E))
    (conn : Conn) : Prop :=
  exists e,
    fst (handle E (mkHState srv conn [])) = Returned (Some e) /\
    btd_calls (h_trace (snd (handle E (mkHState srv conn [])))) = [].

(** Every run of [processRequest] takes one of six paths. *)
Inductive process_path (E : Env) (buf : bytes) (s : HState (Point E))
  : Outcome * HState (Point E) -> Prop :=
| path_wrapper_err e :
    json_Unmarshal_Wrapper E buf = Err e ->
    process_path E buf s
      (Returned (Some e), add_events s [Inc CounterJsonError])
| path_request_err w e :
    json_Unmarshal_Wrapper E buf = Ok w ->
    json_Unmarshal_Request E (Request w) = Err e ->
    process_path E buf s
      (Returned (Some e), add_events s [Inc CounterJsonError])
| path_issue_no_key w r :
    json_Unmarshal_Wrapper E buf = Ok w ->
    json_Unmarshal_Request E (Request w) = Ok r ->
    Type_ r = ISSUE ->
    keys (h_srv s) = [] ->
    process_path E buf s (Panicked, add_events s [Inc CounterIssueTotal])
| path_issue w r k0 ks :
    json_Unmarshal_Wrapper E buf = Ok w ->
    json_Unmarshal_Request E (Request w) = Ok r ->
    Type_ r = ISSUE ->
    keys (h_srv s) = k0 :: ks ->
    let c := h_srv s in
    let x := HandleIssue E (h_conn s) r k0 (G c) (H c) (MaxTokens c) in
    process_path E buf s
      (Returned (ir_err x),
       mkHState (srv_after_issue E c x) (ir_conn x)
         (h_trace s
            ++ [Inc CounterIssueTotal;
                CallIssue r k0 (G c) (H c) (MaxTokens c)]
            ++ match ir_err x with
               | Some _ => [Inc CounterIssueError]
               | None => []
               end))
| path_redeem w r :
    json_Unmarshal_Wrapper E buf = Ok w ->
    json_Unmarshal_Request E (Request w) = Ok r ->
    Type_ r <> ISSUE ->
    Type_ r = REDEEM ->
    let c := h_srv s in
    let x := HandleRedeem E (h_conn s) r (Host w) (Path w) (keys c) in
    process_path E buf s
      (Returned (rr_err x),
       mkHState (srv_after_redeem E c x)
         match rr_err x with
         | Some e => conn_Write (bytes_of_string (Error e)) (rr_conn x)
         | None => rr_conn x
         end
         (h_trace s
            ++ [Inc CounterRedeemTotal;
                CallRedeem r (Host w) (Path w) (keys c)]
            ++ match rr_err x with
               | Some _ => [Inc CounterRedeemError]
               | None => []
               end))
| path_unknown w r :
    json_Unmarshal_Wrapper E buf = Ok w ->
    json_Unmarshal_Request E (Request w) = Ok r ->
    Type_ r <> ISSUE ->
    Type_ r <> REDEEM ->
    process_path E buf s
      (Returned (Some ErrUnrecognizedRequest),
       add_events s
         [Printf ("unrecognized request type " ++ dquote ++ Type_ r ++ dquote);
          Inc CounterUnknownRequestType]).

(** Equality of counters is decidable. *)
Definition Counter_eq_dec (a b : Counter) : {a = b} + {a <> b}.
Proof. decide equality. Defined.

(** The counters incremented among the events, in order. *)
Fixpoint incs {P : Type} (tr : list (Event P)) : list Counter :=
  match tr with
  | [] => []
  | Inc c :: rest => c :: incs rest
  | _ :: rest => incs rest
  end.

(** The durations slept among the events, in order. *)
Fixpoint sleeps {P : Type} (tr : list (Event P)) : list Z :=
  match tr with
  | [] => []
  | Sleep d :: rest => d :: sleeps rest
  | _ :: rest => sleeps rest
  end.

(** The connections among the outcomes of [AcceptTCP]. *)
Fixpoint accepted (accepts : list Accept) : list Conn :=
  match accepts with
  | [] => []
  | Accepted c :: rest => c :: accepted rest
  | AcceptFails _ _ :: rest => accepted rest
  end.

(** Two servers agree on every field that is not handed out by
    reference, and on the number of keys. *)
Definition same_config {P : Type} (c c' : Server P) : Prop :=
  BindAddress c' = BindAddress c /\
  ListenPort c' = ListenPort c /\
  MetricsPort c' = MetricsPort c /\
  MaxTokens c' = MaxTokens c /\
  KeyFilePath c' = KeyFilePath c /\
  CommFilePath c' = CommFilePath c /\
  List.length (keys c') = List.length (keys c).

(** An outcome of [AcceptTCP] that makes the loop wait: a [net.Error]
    whose [Temporary()] holds. *)
Definition temporary_failure (a : Accept) : bool :=
  match a with
  | AcceptFails (OpError _ _) true => true
  | _ => false
  end.

(** Where the loop stands, as a process: [None] when [ListenAndServe]
    returned. *)
Definition process_of {P : Type} (x : Served P) : option (Process P) :=
  match x with
  | Running p => Some p
  | Crashed p => Some p
  | ReturnedErr _ => None
  end.

(** The delays the loop works with: between one millisecond and two
    seconds for the next delay, and at most [maxBackoffDelay] for every
    sleep. *)
Definition backoff_in_range {P : Type} (p : Process P) : Prop :=
  Forall (fun d => Millisecond <= d <= maxBackoffDelay) (sleeps (p_trace p)) /\
  Millisecond <= p_backoff p <= 2 * maxBackoffDelay.

(** The delay of the [k]-th sleep in a row of temporary failures, and the
    delay the loop holds after [k] of them: one millisecond doubled [k]
    times, capped at [maxBackoffDelay] when slept and at twice that when
    held. *)
Definition sleep_at (k : nat) : Z :=
  Z.min (2 ^ Z.of_nat k * Millisecond) maxBackoffDelay.

Definition backoff_after (k : nat) : Z :=
  Z.min (2 ^ Z.of_nat k * Millisecond) (2 * maxBackoffDelay).

(** Modelled from the spec: the redemption verifier of package btd is
    not part of the sources at hand.  It tries each configured key in
    order and the first matching key yields success: a request that
    verifies under one key verifies under every key sequence that holds
    this key. *)
Definition verifier_tries_every_key (E : Env) : Prop :=
  forall conn r host path ks k,
    In k ks ->
    rr_err (HandleRedeem E conn r host path [k]) = None ->
    rr_err (HandleRedeem E conn r host path ks) = None.

(** *** The loop and its goroutines

    [serve] runs the goroutine of lines 207 to 210 at the place where it
    is started.  In the code the loop goes back to [AcceptTCP] at once
    and the goroutine runs when it is scheduled.  The definitions below
    keep the two apart: a pool is the listening process together with
    the connections whose goroutine has been started and has not run
    yet, and a schedule says in which order the loop takes an outcome
    of [AcceptTCP] and a started goroutine runs. *)
Record Pool (P : Type) : Type := mkPool {
  pool_proc : Process P;
  pool_pending : list Conn
}.
Arguments mkPool {P}.

Inductive Action : Type :=
| LoopAccepts (a : Accept)
| GoroutineRuns (i : nat).

(** A pool at work, or the process a panic has taken down. *)
Inductive Pooled (P : Type) : Type :=
| Live (s : Pool P)
| Dead (p : Process P).

Definition remove_nth {A : Type} (i : nat) (l : list A) : list A :=
  (firstn i l ++ skipn (S i) l)%list.

(** One step of a schedule.  The loop, on a connection: lines 203 to
    207, the goroutine is started and waits its turn; on a failure:
    lines 187 to 200, as in [serve].  The goroutine of the [i]-th
    waiting connection: lines 208 and 209 and the logger's lines 174 to
    179; a step that names no waiting goroutine does nothing. *)
Definition pool_step (E : Env) (s : Pool (Point E)) (a : Action)
  : Pooled (Point E) :=
  let p := pool_proc s in
  match a with
  | LoopAccepts (Accepted tcpConn) =>
      Live (mkPool
              (mkProcess (p_srv p) (p_trace p) (1 * Millisecond) (p_done p))
              (pool_pending s ++ [SetKeepAlive (1 * Minute) tcpConn])%list)
  | LoopAccepts (AcceptFails e t) =>
      match serve E p (AcceptFails e t) with
      | Running p' => Live (mkPool p' (pool_pending s))
      | _ => Live s
      end
  | GoroutineRuns i =>
      match nth_error (pool_pending s) i with
      | None => Live s
      | Some c =>
          match handle E (mkHState (p_srv p) c (p_trace p)) with
          | (Returned err, h) =>
              Live (mkPool
                      (mkProcess (h_srv h)
                         (h_trace h
                            ++ match err with
                               | Some e => [Printf (Error e)]
                               | None => []
                               end)%list
                         (p_backoff p)
                         (p_done p ++ [conn_Close (h_conn h)])%list)
                      (remove_nth i (pool_pending s)))
          | (Panicked, h) =>
              Dead (mkProcess (h_srv h) (h_trace h) (p_backoff p) (p_done p))
          end
      end
  end.

Fixpoint pool_run (E : Env) (s : Pool (Point E)) (actions : list Action)
  : Pooled (Point E) :=
  match actions with
  | [] => Live s
  | a :: rest =>
      match pool_step E s a with
      | Live s' => pool_run E s' rest
      | Dead p => Dead p
      end
  end.

(** The outcomes of [AcceptTCP] a schedule takes. *)
Fixpoint accepts_of (actions : list Action) : list Accept :=
  match actions with
  | [] => []
  | LoopAccepts a :: rest => a :: accepts_of rest
  | GoroutineRuns _ :: rest => accepts_of rest
  end.

(** The schedule in which each goroutine runs as soon as it is
    started. *)
Fixpoint inline (accepts : list Accept) : list Action :=
  match accepts with
  | [] => []
  | Accepted c :: rest =>
      LoopAccepts (Accepted c) :: GoroutineRuns 0 :: inline rest
  | AcceptFails e t :: rest => LoopAccepts (AcceptFails e t) :: inline rest
  end.

(** What holds of a pool at every point of a schedule: a connection
    accepted is waiting or done with, a connection done with is closed
    and has been counted once. *)
Definition pool_accounts {P : Type} (n : nat) (s : Pool P) : Prop :=
  (List.length (p_done (pool_proc s)) + List.length (pool_pending s))%nat = n /\
  Forall (fun c => closed c = true) (p_done (pool_proc s)) /\
  count_occ Counter_eq_dec (incs (p_trace (pool_proc s))) CounterConnections
  = List.length (p_done (pool_proc s)).

(** The counters that count failures. *)
Definition is_error_counter (c : Counter) : bool :=
  match c with
  | CounterConnErrors | CounterJsonError | CounterIssueError
  | CounterRedeemError | CounterUnknownRequestType => true
  | CounterConnections | CounterIssueTotal | CounterRedeemTotal => false
  end.

(** Modelled from the spec: the handlers of package btd are not part of
    the sources at hand.  Both consume only read-only Key Material: a call
    leaves the bytes of the keys and the two points as it found them. *)
Definition handlers_read_only (E : Env) : Prop :=
  (forall c r k g h m,
      ir_key (HandleIssue E c r k g h m) = k /\
      ir_G (HandleIssue E c r k g h m) = g /\
      ir_H (HandleIssue E c r k g h m) = h) /\
  (forall c r host path ks, rr_keys (HandleRedeem E c r host path ks) = ks).

Fixpoint bytes_eqb (a b : bytes) : bool :=
  match a, b with
  | [], [] => true
  | x :: a', y :: b' => Byte.eqb x y && bytes_eqb a' b'
  | _, _ => false
  end.

(** Modelled from the spec: the invoking layer is not part of the sources
    at hand.  It treats the response payload as a successful verification
    only if it is the single canonical success marker; any other payload
    is a verification failure. *)
Definition successMarker : bytes := bytes_of_string "success".

Definition caller_accepts (payload : bytes) : bool :=
  bytes_eqb payload successMarker.

(** A process that has reached [AcceptTCP]. *)
Definition serves {P : Type} (x : Exit P) : bool :=
  match x with
  | Serving _ | ServingCrashed _ => true
  | _ => false
  end.

(* ================================================================== *)
(** ** A small implementation of the collaborators *)
(* ================================================================== *)

(** One concrete [Env], small enough to run by hand: the group of prime
    order 11 with a point written as its discrete logarithm, the JSON
    decoder on the documents the server is sent, and handlers that write
    a fixed payload.  It serves to run the server on concrete inputs. *)
Module Sample.

(** [new(big.Int).SetBytes(k)] *)
Definition big_endian (k : bytes) : Z :=
  fold_left (fun acc x => acc * 256 + Z.of_N (Byte.to_N x)) k 0.

Definition q : Z := 11.

Definition scalarMult (k : bytes) (p : Z) : Z := (big_endian k * p) mod q.

Definition unmarshalPoint (b : bytes) : result Z :=
  match b with
  | [x] => if Z.of_N (Byte.to_N x) <? q then Ok (Z.of_N (Byte.to_N x))
           else Err (errorString "point not in the group")
  | _ => Err (errorString "malformed point")
  end.

(** *** encoding/json at the two types of package btd

    The decoder below reads the JSON documents whose members are
    strings and arrays of strings written without escapes, in ASCII,
    and whose keys are spelled as the struct tags; on these it yields
    what [json.Unmarshal] yields.  Every other input is refused, also
    the documents outside this fragment that [json.Unmarshal] would
    read. *)

(** JSON white space: space, tab, line feed, carriage return. *)
Definition is_ws (x : byte) : bool :=
  match x with
  | x20 | x09 | x0a | x0d => true
  | _ => false
  end.

Fixpoint skip_ws (b : bytes) : bytes :=
  match b with
  | x :: r => if is_ws x then skip_ws r else b
  | [] => []
  end.

(** A character that stands for itself inside a string: printable
    ASCII other than the quote and the backslash. *)
Definition plain_char (x : byte) : bool :=
  (32 <=? Byte.to_N x)%N && (Byte.to_N x <? 128)%N
  && negb (Byte.eqb x x22) && negb (Byte.eqb x x5c).

(** The string whose opening quote has been read: its characters and
    what follows the closing quote. *)
Fixpoint scan_string (b : bytes) : option (bytes * bytes) :=
  match b with
  | [] => None
  | x :: r =>
      if Byte.eqb x x22 then Some ([], r)
      else if plain_char x then
        match scan_string r with
        | Some (str, rest) => Some (x :: str, rest)
        | None => None
        end
      else None
  end.

Inductive value : Type :=
| VString (str : bytes)
| VArray (l : list bytes).

(** The strings of an array whose bracket has been read. *)
Fixpoint elements (fuel : nat) (b : bytes) : option (list bytes * bytes) :=
  match fuel with
  | O => None
  | S fuel' =>
      match skip_ws b with
      | x22 :: r =>
          match scan_string r with
          | Some (str, r1) =>
              match skip_ws r1 with
              | x2c :: r2 =>
                  match elements fuel' r2 with
                  | Some (l, rest) => Some (str :: l, rest)
                  | None => None
                  end
              | x5d :: r2 => Some ([str], r2)
              | _ => None
              end
          | None => None
          end
      | _ => None
      end
  end.

Definition parse_value (b : bytes) : option (value * bytes) :=
  match skip_ws b with
  | x22 :: r =>
      match scan_string r with
      | Some (str, rest) => Some (VString str, rest)
      | None => None
      end
  | x5b :: r =>
      match skip_ws r with
      | x5d :: rest => Some (VArray [], rest)
      | _ =>
          match elements (S (List.length r)) r with
          | Some (l, rest) => Some (VArray l, rest)
          | None => None
          end
      end
  | _ => None
  end.

(** The members of an object whose brace has been read. *)
Fixpoint members (fuel : nat) (b : bytes)
  : option (list (bytes * value) * bytes) :=
  match fuel with
  | O => None
  | S fuel' =>
      match skip_ws b with
      | x22 :: r =>
          match scan_string r with
          | Some (k, r1) =>
              match skip_ws r1 with
              | x3a :: r2 =>
                  match parse_value r2 with
                  | Some (v, r3) =>
                      match skip_ws r3 with
                      | x2c :: r4 =>
                          match members fuel' r4 with
                          | Some (l, rest) => Some ((k, v) :: l, rest)
                          | None => None
                          end
                      | x7d :: r4 => Some ([(k, v)], r4)
                      | _ => None
                      end
                  | None => None
                  end
              | _ => None
              end
          | None => None
          end
      | _ => None
      end
  end.

(** A whole document: one object, with white space around it and
    nothing else. *)
Definition document (b : bytes) : option (list (bytes * value)) :=
  match skip_ws b with
  | x7b :: r =>
      match
        match skip_ws r with
        | x7d :: rest => Some ([], rest)
        | _ => members (S (List.length r)) r
        end
      with
      | Some (m, rest) =>
          match skip_ws rest with
          | [] => Some m
          | _ => None
          end
      | None => None
      end
  | _ => None
  end.

(** The value of the last member named [k]: a later member overrides
    an earlier one of the same name. *)
Fixpoint member (k : bytes) (m : list (bytes * value)) : option value :=
  match m with
  | [] => None
  | (k', v) :: rest =>
      match member k rest with
      | Some v' => Some v'
      | None => if bytes_eqb k k' then Some v else None
      end
  end.

(** Every key is one of [names]. *)
Definition only_keys (names : list string) (m : list (bytes * value)) : bool :=
  forallb
    (fun kv => existsb (fun n => bytes_eqb (fst kv) (bytes_of_string n)) names)
    m.

(** base64 with the standard alphabet and padding, as [[]byte] fields
    are written. *)
Definition b64_value (x : byte) : option N :=
  let n := Byte.to_N x in
  if ((65 <=? n) && (n <=? 90))%N then Some (n - 65)%N
  else if ((97 <=? n) && (n <=? 122))%N then Some (n - 71)%N
  else if ((48 <=? n) && (n <=? 57))%N then Some (n + 4)%N
  else if (n =? 43)%N then Some 62%N
  else if (n =? 47)%N then Some 63%N
  else None.

Definition b64_char (n : N) : byte :=
  let c := if (n <? 26)%N then (n + 65)%N
           else if (n <? 52)%N then (n + 71)%N
           else if (n <? 62)%N then (n - 4)%N
           else if (n =? 62)%N then 43%N else 47%N in
  match Byte.of_N c with Some x => x | None => x00 end.

Definition byte_of (n : N) : byte :=
  match Byte.of_N (n mod 256) with Some x => x | None => x00 end.

Definition sextets (l : list byte) : option (list N) :=
  fold_right (fun x acc =>
                match b64_value x, acc with
                | Some n, Some l' => Some (n :: l')
                | _, _ => None
                end) (Some []) l.

(** Three bytes of four characters; in the last group one or two
    padding characters stand for one or two missing bytes. *)
Definition b64_quad (a c d e : byte) : option bytes :=
  match sextets [a; c; d; e] with
  | Some [s1; s2; s3; s4] =>
      let n := (s1 * 262144 + s2 * 4096 + s3 * 64 + s4)%N in
      Some [byte_of (n / 65536); byte_of (n / 256); byte_of n]
  | _ => None
  end.

Definition b64_last (a c d e : byte) : option bytes :=
  if Byte.eqb e x3d then
    if Byte.eqb d x3d then
      match sextets [a; c] with
      | Some [s1; s2] => Some [byte_of (s1 * 4 + s2 / 16)]
      | _ => None
      end
    else
      match sextets [a; c; d] with
      | Some [s1; s2; s3] =>
          let n := (s1 * 4096 + s2 * 64 + s3)%N in
          Some [byte_of (n / 1024); byte_of (n / 4)]
      | _ => None
      end
  else b64_quad a c d e.

Fixpoint b64_decode (b : bytes) : option bytes :=
  match b with
  | [] => Some []
  | a :: c :: d :: e :: rest =>
      match rest with
      | [] => b64_last a c d e
      | _ :: _ =>
          match b64_quad a c d e, b64_decode rest with
          | Some hd, Some tl => Some (hd ++ tl)%list
          | _, _ => None
          end
      end
  | _ => None
  end.

Fixpoint b64_encode (b : bytes) : bytes :=
  match b with
  | [] => []
  | [x] =>
      let n := Byte.to_N x in
      [b64_char (n / 4); b64_char ((n mod 4) * 16); x3d; x3d]
  | [x; y] =>
      let n := (Byte.to_N x * 256 + Byte.to_N y)%N in
      [b64_char (n / 1024); b64_char ((n / 16) mod 64);
       b64_char ((n mod 16) * 4); x3d]
  | x :: y :: z :: rest =>
      let n := (Byte.to_N x * 65536 + Byte.to_N y * 256 + Byte.to_N z)%N in
      b64_char (n / 262144) :: b64_char ((n / 4096) mod 64)
        :: b64_char ((n / 64) mod 64) :: b64_char (n mod 64) :: b64_encode rest
  end.

Fixpoint b64_decode_all (l : list bytes) : option (list bytes) :=
  match l with
  | [] => Some []
  | x :: rest =>
      match b64_decode x, b64_decode_all rest with
      | Some y, Some ys => Some (y :: ys)
      | _, _ => None
      end
  end.

(** A field of type [string], [[]byte] and [[][]byte]: absent it keeps
    the zero value; [None] when the member has another type or is not
    base64. *)
Definition string_field (name : string) (m : list (bytes * value))
  : option string :=
  match member (bytes_of_string name) m with
  | None => Some ""
  | Some (VString str) => Some (string_of_list_byte str)
  | Some (VArray _) => None
  end.

Definition bytes_field (name : string) (m : list (bytes * value))
  : option bytes :=
  match member (bytes_of_string name) m with
  | None => Some []
  | Some (VString str) => b64_decode str
  | Some (VArray _) => None
  end.

Definition bytes_list_field (name : string) (m : list (bytes * value))
  : option (list bytes) :=
  match member (bytes_of_string name) m with
  | None => Some []
  | Some (VArray l) => b64_decode_all l
  | Some (VString _) => None
  end.

(** [json.Unmarshal(b, &wrapped)]: the envelope is an object with the
    members [bl_sig_req] (the inner request, base64), [host] and
    [http]. *)
Definition json_Unmarshal_Wrapper (b : bytes) : result BlindTokenRequestWrapper :=
  match document b with
  | None => Err (errorString "json: cannot read the envelope")
  | Some m =>
      if only_keys ["bl_sig_req"; "host"; "http"] m then
        match bytes_field "bl_sig_req" m,
              string_field "host" m, string_field "http" m with
        | Some req, Some h, Some p => Ok (mkWrapper req h p)
        | _, _, _ => Err (errorString "json: cannot unmarshal the envelope")
        end
      else Err (errorString "json: envelope member not read")
  end.

(** [json.Unmarshal(wrapped.Request, &request)]: the request is an
    object with the members [type] and [contents] (an array of base64
    strings). *)
Definition json_Unmarshal_Request (b : bytes) : result BlindTokenRequest :=
  match document b with
  | None => Err (errorString "json: cannot read the request")
  | Some m =>
      if only_keys ["type"; "contents"] m then
        match string_field "type" m, bytes_list_field "contents" m with
        | Some t, Some cs => Ok (mkRequest t cs)
        | _, _ => Err (errorString "json: cannot unmarshal the request")
        end
      else Err (errorString "json: request member not read")
  end.

(** The documents the sender writes: [json.Marshal] of a request and of
    an envelope around it. *)
Definition quoted (str : bytes) : bytes := (x22 :: str ++ [x22])%list.

Fixpoint joined (l : list bytes) : bytes :=
  match l with
  | [] => []
  | [x] => x
  | x :: rest => (x ++ x2c :: joined rest)%list
  end.

Definition request_json (t : string) (contents : list bytes) : bytes :=
  ([x7b] ++ quoted (bytes_of_string "type") ++ [x3a]
     ++ quoted (bytes_of_string t) ++ [x2c]
     ++ quoted (bytes_of_string "contents") ++ [x3a; x5b]
     ++ joined (map (fun c => quoted (b64_encode c)) contents)
     ++ [x5d; x7d])%list.

Definition envelope_json (inner : bytes) (host path : string) : bytes :=
  ([x7b] ++ quoted (bytes_of_string "bl_sig_req") ++ [x3a]
     ++ quoted (b64_encode inner) ++ [x2c]
     ++ quoted (bytes_of_string "host") ++ [x3a]
     ++ quoted (bytes_of_string host) ++ [x2c]
     ++ quoted (bytes_of_string "http") ++ [x3a]
     ++ quoted (bytes_of_string path) ++ [x7d])%list.

Definition json_checkValid (b : bytes) : option error :=
  match b with
  | "{"%byte :: _ => None
  | _ => Some (errorString "invalid character looking for beginning of value")
  end.

(** Signs a batch of one to [maxTokens] points with [key]; writes the
    signed batch; reads the key material only. *)
Definition HandleIssue (conn : Conn) (req : BlindTokenRequest) (key : bytes)
    (g h : option Z) (maxTokens : Z) : IssueResult Z :=
  if len (Contents req) =? 0 then
    mkIssueResult (Some (errorString "EmptyBatch")) conn key g h
  else if maxTokens <? len (Contents req) then
    mkIssueResult (Some (errorString "BatchSizeExceeded")) conn key g h
  else
    mkIssueResult None (conn_Write (bytes_of_string "signed") conn) key g h.

(** The tag of preimage [t] under key [k] for the binding (host, path). *)
Definition tag_of (k t : bytes) (host path : string) : bytes :=
  (k ++ t ++ bytes_of_string host ++ bytes_of_string path)%list.

(** Tries the keys in order; writes the success marker on a match. *)
Definition HandleRedeem (conn : Conn) (req : BlindTokenRequest)
    (host path : string) (ks : list bytes) : RedeemResult :=
  match Contents req with
  | [t; tag] =>
      if existsb (fun k => bytes_eqb (tag_of k t host path) tag) ks then
        mkRedeemResult None (conn_Write successMarker conn) ks
      else mkRedeemResult (Some (errorString "VerifyFailed")) conn ks
  | _ => mkRedeemResult (Some (errorString "malformed redemption")) conn ks
  end.

Definition configJSON : bytes :=
  bytes_of_string ("{" ++ dquote ++ "listen_port" ++ dquote ++ ": 9000}").

Definition ioutil_ReadFile (path : string) : result bytes :=
  if String.eqb path "btd.json" then Ok configJSON
  else Err (errorString ("open " ++ path ++ ": no such file or directory")).

(** Two keys: the primary scalar 7 and an older scalar 3. *)
Definition key7 : bytes := [x07].
Definition key3 : bytes := [x03].

Definition ParseKeyFile (path : string) : result (list bytes) :=
  if String.eqb path "keys.pem" then Ok [key7; key3]
  else if String.eqb path "empty.pem" then Ok []
  else Err (errorString ("open " ++ path ++ ": no such file or directory")).

(** [comm.json] holds G = g and H = g^7; [wrong.json] holds G = g and
    H = g^5. *)
Definition ParseCommitmentFile (path : string) : result (bytes * bytes) :=
  if String.eqb path "comm.json" then Ok ([x01], [x07])
  else if String.eqb path "wrong.json" then Ok ([x01], [x05])
  else Err (errorString ("open " ++ path ++ ": no such file or directory")).

Definition env : Env :=
  mkEnv json_Unmarshal_Wrapper json_Unmarshal_Request json_checkValid
        HandleIssue HandleRedeem ioutil_ReadFile ParseKeyFile
        ParseCommitmentFile unmarshalPoint scalarMult Z.eqb Z.eqb_eq
        (fun addr => Ok addr) (fun _ => None).

(** The same, with an issue handler that zeroes the key it is handed. *)
Definition HandleIssue_scribbling (conn : Conn) (req : BlindTokenRequest)
    (key : bytes) (g h : option Z) (maxTokens : Z) : IssueResult Z :=
  mkIssueResult None conn (map (fun _ => x00) key) g h.

Definition env_scribbling : Env :=
  mkEnv json_Unmarshal_Wrapper json_Unmarshal_Request json_checkValid
        HandleIssue_scribbling HandleRedeem ioutil_ReadFile ParseKeyFile
        ParseCommitmentFile unmarshalPoint scalarMult Z.eqb Z.eqb_eq
        (fun addr => Ok addr) (fun _ => None).

(** The server as [main] sets it up from [keys.pem] and [comm.json]. *)
Definition srv : Server Z :=
  mkServer "127.0.0.1" 2416 2417 100 "keys.pem" "comm.json"
           [key7; key3] (Some 1) (Some 7).

(** A fresh connection carrying [data], the peer then doing [e]. *)
Definition conn_of (data : bytes) (e : ReadEnd) : Conn :=
  mkConn data e [] None None false.

(** The time-out a read deadline produces. *)
Definition i_o_timeout : error :=
  OpError "read tcp 127.0.0.1:2416" (errorString "i/o timeout").

(** A redemption of preimage [t] with the tag under key 3, bound to
    example.com and /a. *)
Definition redeem_req : BlindTokenRequest :=
  mkRequest "Redeem"
    [bytes_of_string "t"; tag_of key3 (bytes_of_string "t") "example.com" "/a"].

Definition redeem_inner : bytes := request_json "Redeem" (Contents redeem_req).

Definition redeem_msg : bytes := envelope_json redeem_inner "example.com" "/a".

(** The same redemption with a tag that no configured key produces. *)
Definition bad_redeem_req : BlindTokenRequest :=
  mkRequest "Redeem" [bytes_of_string "t"; bytes_of_string "forged"].

Definition bad_redeem_inner : bytes :=
  request_json "Redeem" (Contents bad_redeem_req).

Definition bad_redeem_msg : bytes :=
  envelope_json bad_redeem_inner "example.com" "/a".

(** An issuance of two blinded points. *)
Definition issue_req : BlindTokenRequest :=
  mkRequest "Issue" [bytes_of_string "M1"; bytes_of_string "M2"].

Definition issue_inner : bytes := request_json "Issue" (Contents issue_req).

Definition issue_msg : bytes := envelope_json issue_inner "example.com" "/a".

(** The decoded envelope of a message for example.com and /a. *)
Definition envelope (inner : bytes) : BlindTokenRequestWrapper :=
  mkWrapper inner "example.com" "/a".

(** A message that is no envelope, and a well-formed one whose type is
    spelled in lower case. *)
Definition garbage_msg : bytes := bytes_of_string "GET / HTTP/1.1".

Definition lowercase_req : BlindTokenRequest :=
  mkRequest "issue" [bytes_of_string "M1"].

Definition lowercase_inner : bytes :=
  request_json "issue" (Contents lowercase_req).

Definition lowercase_msg : bytes :=
  envelope_json lowercase_inner "example.com" "/a".

(** The error of a read on a connection the peer has reset. *)
Definition conn_reset : error :=
  OpError "read tcp 127.0.0.1:2416" (errorString "connection reset by peer").

(** The error of [AcceptTCP] when the process is out of descriptors. *)
Definition too_many_files : error :=
  OpError "accept tcp 127.0.0.1:2416" (errorString "too many open files").

(** A schedule: two connections are accepted, the goroutine of the
    second runs first, [AcceptTCP] fails once, then the goroutine of the
    first connection runs. *)
Definition schedule : list Action :=
  [LoopAccepts (Accepted (conn_of issue_msg AtEOF));
   LoopAccepts (Accepted (conn_of bad_redeem_msg AtEOF));
   GoroutineRuns 1;
   LoopAccepts (AcceptFails too_many_files true);
   GoroutineRuns 0].

(** The process as [ListenAndServe] enters its loop, and the pool at
    the end of the schedule. *)
Definition process_start : Process Z :=
  Eval vm_compute in
    match ListenAndServe env srv [] with
    | Running p => p
    | _ => mkProcess srv [] 0 []
    end.

Definition pool_end : Pool Z :=
  Eval vm_compute in
    match pool_run env (mkPool process_start []) schedule with
    | Live s => s
    | Dead p => mkPool p []
    end.

(** The command lines used below. *)
Definition flags_good : Flags :=
  mkFlags "" "127.0.0.1" "keys.pem" "comm.json" 2416 2417 100.
Definition flags_wrong_commitment : Flags :=
  mkFlags "" "127.0.0.1" "keys.pem" "wrong.json" 2416 2417 100.
Definition flags_empty_keys : Flags :=
  mkFlags "" "127.0.0.1" "empty.pem" "comm.json" 2416 2417 100.
Definition flags_config : Flags :=
  mkFlags "btd.json" "127.0.0.1" "keys.pem" "comm.json" 2416 2417 100.

(** A message of more than [maxRequestSize] bytes: the issuance above,
    white space up to byte 20480, and more bytes after that. *)
Definition oversize_msg : bytes :=
  (issue_msg
     ++ repeat x20 (Z.to_nat maxRequestSize - List.length issue_msg)
     ++ bytes_of_string "bytes past the cap, never read")%list.

End Sample.

(* ================================================================== *)
(** * Properties *)
(* ================================================================== *)

(** ** Reading the request *)

Lemma request_bytes_deadline d c :
  request_bytes (SetReadDeadline d c) = request_bytes c.
Proof.
  unfold request_bytes, io_Copy_LimitReader; cbn [incoming SetReadDeadline].
  destruct (maxRequestSize <=? len (incoming c)); reflexivity.
Qed.

Lemma read_error_deadline d c :
  read_error (SetReadDeadline d c) = read_error c.
Proof.
  unfold read_error, io_Copy_LimitReader; cbn [incoming rd_end SetReadDeadline].
  destruct (maxRequestSize <=? len (incoming c)); reflexivity.
Qed.

Lemma request_bytes_short c :
  len (incoming c) < maxRequestSize -> request_bytes c = incoming c.
Proof.
  intros Hlt. unfold request_bytes, io_Copy_LimitReader.
  destruct (Z.leb_spec maxRequestSize (len (incoming c))); [lia | reflexivity].
Qed.

Lemma read_error_short c :
  len (incoming c) < maxRequestSize ->
  read_error c = match rd_end c with AtEOF => None | ReadFails e => Some e end.
Proof.
  intros Hlt. unfold read_error, io_Copy_LimitReader.
  destruct (Z.leb_spec maxRequestSize (len (incoming c))); [lia | reflexivity].
Qed.

Lemma request_bytes_long c :
  maxRequestSize <= len (incoming c) ->
  request_bytes c = firstn (Z.to_nat maxRequestSize) (incoming c).
Proof.
  intros Hle. unfold request_bytes, io_Copy_LimitReader.
  destruct (Z.leb_spec maxRequestSize (len (incoming c))); [reflexivity | lia].
Qed.

Lemma read_error_long c :
  maxRequestSize <= len (incoming c) -> read_error c = None.
Proof.
  intros Hle. unfold read_error, io_Copy_LimitReader.
  destruct (Z.leb_spec maxRequestSize (len (incoming c))); [reflexivity | lia].
Qed.

(** The buffer never holds more than [maxRequestSize] bytes. *)
Lemma request_bytes_bounded c : len (request_bytes c) <= maxRequestSize.
Proof.
  unfold request_bytes, io_Copy_LimitReader, len.
  destruct (Z.leb_spec maxRequestSize (Z.of_nat (List.length (incoming c))));
    cbn [fst].
  - rewrite length_firstn. unfold maxRequestSize in *. lia.
  - lia.
Qed.

Section HandleFacts.
Context (E : Env).

(** [handle] is its prologue followed, unless the read failed, by
    [processRequest] on the bytes read. *)
Lemma handle_unfold (s : HState (Point E)) :
  handle E s =
  match read_error (h_conn s) with
  | Some e =>
      if timeout_with_data e (request_bytes (h_conn s))
      then run (processRequest E (request_bytes (h_conn s))) (after_read s)
      else (Returned (Some e),
            mkHState (h_srv s) (conn_after_read (h_conn s))
                     ((h_trace s ++ [Inc CounterConnections])
                        ++ [Inc CounterConnErrors]))
  | None => run (processRequest E (request_bytes (h_conn s))) (after_read s)
  end.
Proof.
  unfold handle, handle_body, run, bind, inc, emit, on_conn, readRequest,
    after_read, conn_after_read, read_error, request_bytes.
  cbn [h_srv h_conn h_trace].
  change (io_Copy_LimitReader maxRequestSize
            (SetReadDeadline (100 * Millisecond) (h_conn s)))
    with (let c := SetReadDeadline (100 * Millisecond) (h_conn s) in
          io_Copy_LimitReader maxRequestSize c).
  unfold io_Copy_LimitReader; cbn [incoming SetReadDeadline rd_end].
  destruct (maxRequestSize <=? len (incoming (h_conn s))); cbn.
  - reflexivity.
  - destruct (rd_end (h_conn s)) as [|e]; cbn; [reflexivity|].
    destruct (timeout_with_data e (incoming (h_conn s))); reflexivity.
Qed.

(** *** The paths through [processRequest] *)

Lemma process_wrapper_err buf (s : HState (Point E)) e :
  json_Unmarshal_Wrapper E buf = Err e ->
  run (processRequest E buf) s
  = (Returned (Some e), add_events s [Inc CounterJsonError]).
Proof.
  intros Hw. unfold processRequest, run, bind. rewrite Hw. reflexivity.
Qed.

Lemma process_request_err buf (s : HState (Point E)) w e :
  json_Unmarshal_Wrapper E buf = Ok w ->
  json_Unmarshal_Request E (Request w) = Err e ->
  run (processRequest E buf) s
  = (Returned (Some e), add_events s [Inc CounterJsonError]).
Proof.
  intros Hw Hr. unfold processRequest, run, bind. rewrite Hw. cbn.
  rewrite Hr. reflexivity.
Qed.

Lemma process_issue buf (s : HState (Point E)) w r k0 ks :
  json_Unmarshal_Wrapper E buf = Ok w ->
  json_Unmarshal_Request E (Request w) = Ok r ->
  Type_ r = ISSUE ->
  keys (h_srv s) = k0 :: ks ->
  let c := h_srv s in
  let x := HandleIssue E (h_conn s) r k0 (G c) (H c) (MaxTokens c) in
  run (processRequest E buf) s
  = (Returned (ir_err x),
     mkHState (srv_after_issue E c x) (ir_conn x)
       (h_trace s
          ++ [Inc CounterIssueTotal;
              CallIssue r k0 (G c) (H c) (MaxTokens c)]
          ++ match ir_err x with
             | Some _ => [Inc CounterIssueError]
             | None => []
             end)).
Proof.
  intros Hw Hr Ht Hk c x. subst c x.
  unfold processRequest, run, bind. rewrite Hw. cbn.
  rewrite Hr. cbn. rewrite Ht. cbn.
  unfold keys_0, bind, get_srv. cbn. rewrite Hk.
  unfold call_HandleIssue, ret. cbn [h_srv h_conn h_trace].
  destruct (ir_err _); cbn; rewrite <- ?app_assoc; reflexivity.
Qed.

Lemma process_issue_no_key buf (s : HState (Point E)) w r :
  json_Unmarshal_Wrapper E buf = Ok w ->
  json_Unmarshal_Request E (Request w) = Ok r ->
  Type_ r = ISSUE ->
  keys (h_srv s) = [] ->
  run (processRequest E buf) s
  = (Panicked, add_events s [Inc CounterIssueTotal]).
Proof.
  intros Hw Hr Ht Hk.
  unfold processRequest, run, bind. rewrite Hw. cbn.
  rewrite Hr. cbn. rewrite Ht. cbn.
  unfold keys_0, bind, get_srv. cbn. rewrite Hk. reflexivity.
Qed.

Lemma process_redeem buf (s : HState (Point E)) w r :
  json_Unmarshal_Wrapper E buf = Ok w ->
  json_Unmarshal_Request E (Request w) = Ok r ->
  Type_ r = REDEEM ->
  let c := h_srv s in
  let x := HandleRedeem E (h_conn s) r (Host w) (Path w) (keys c) in
  run (processRequest E buf) s
  = (Returned (rr_err x),
     mkHState (srv_after_redeem E c x)
       match rr_err x with
       | Some e => conn_Write (bytes_of_string (Error e)) (rr_conn x)
       | None => rr_conn x
       end
       (h_trace s
          ++ [Inc CounterRedeemTotal;
              CallRedeem r (Host w) (Path w) (keys c)]
          ++ match rr_err x with
             | Some _ => [Inc CounterRedeemError]
             | None => []
             end)).
Proof.
  intros Hw Hr Ht c x. subst c x.
  unfold processRequest, run, bind. rewrite Hw. cbn.
  rewrite Hr. cbn. rewrite Ht. cbn.
  unfold call_HandleRedeem. cbn [h_srv h_conn h_trace].
  destruct (rr_err _); cbn; rewrite <- ?app_assoc; reflexivity.
Qed.

Lemma process_unknown buf (s : HState (Point E)) w r :
  json_Unmarshal_Wrapper E buf = Ok w ->
  json_Unmarshal_Request E (Request w) = Ok r ->
  Type_ r <> ISSUE ->
  Type_ r <> REDEEM ->
  run (processRequest E buf) s
  = (Returned (Some ErrUnrecognizedRequest),
     add_events s
       [Printf ("unrecognized request type " ++ dquote ++ Type_ r ++ dquote);
        Inc CounterUnknownRequestType]).
Proof.
  intros Hw Hr Hi Hd.
  unfold processRequest, run, bind. rewrite Hw. cbn.
  rewrite Hr. cbn.
  destruct (String.eqb_spec (Type_ r) ISSUE); [contradiction|].
  destruct (String.eqb_spec (Type_ r) REDEEM); [contradiction|].
  cbn. unfold add_events. rewrite <- app_assoc. reflexivity.
Qed.

(** *** The two ways out of the read *)

Lemma handle_proceeds (s : HState (Point E)) :
  read_proceeds (h_conn s) = true ->
  handle E s = run (processRequest E (request_bytes (h_conn s))) (after_read s).
Proof.
  unfold read_proceeds. intros Hp. rewrite handle_unfold.
  destruct (read_error (h_conn s)); [rewrite Hp|]; reflexivity.
Qed.

Lemma handle_read_fails (s : HState (Point E)) :
  read_proceeds (h_conn s) = false ->
  exists e,
    read_error (h_conn s) = Some e /\
    handle E s
    = (Returned (Some e), add_events (after_read s) [Inc CounterConnErrors]).
Proof.
  unfold read_proceeds. intros Hp. rewrite handle_unfold.
  destruct (read_error (h_conn s)) as [e|]; [|discriminate].
  exists e. rewrite Hp. split; reflexivity.
Qed.

Lemma process_paths buf (s : HState (Point E)) :
  process_path E buf s (run (processRequest E buf) s).
Proof.
  destruct (json_Unmarshal_Wrapper E buf) as [w|e] eqn:Hw.
  2:{ rewrite (process_wrapper_err _ _ Hw). now constructor. }
  destruct (json_Unmarshal_Request E (Request w)) as [r|e] eqn:Hr.
  2:{ rewrite (process_request_err _ _ Hw Hr). econstructor; eassumption. }
  destruct (String.eqb_spec (Type_ r) ISSUE) as [Hi|Hi].
  - destruct (keys (h_srv s)) as [|k0 ks] eqn:Hk.
    + rewrite (process_issue_no_key _ _ Hw Hr Hi Hk).
      econstructor; eassumption.
    + rewrite (process_issue _ _ Hw Hr Hi Hk).
      eapply path_issue; eassumption.
  - destruct (String.eqb_spec (Type_ r) REDEEM) as [Hd|Hd].
    + rewrite (process_redeem _ _ Hw Hr Hd).
      eapply path_redeem; eassumption.
    + rewrite (process_unknown _ _ Hw Hr Hi Hd).
      eapply path_unknown; eassumption.
Qed.

End HandleFacts.

(** ** The arguments of the calls into package btd *)



(** C2: an issuance request is evaluated under the key at index 0 of the
    configured keys: the one call [handle] makes into package btd is
    [HandleIssue] with [keys[0]] (and the server's G, H and MaxTokens),
    and what [handle] returns, what the connection holds and what the
    server is afterwards are the error, the connection and the key
    material of that very call; no other key reaches the evaluator. *)
Theorem issue_uses_primary_key (E : Env) (srv : Server (Point E))
    (conn : Conn) (w : BlindTokenRequestWrapper) (r : BlindTokenRequest)
    (k0 : bytes) (ks : list bytes) :
  read_proceeds conn = true ->
  json_Unmarshal_Wrapper E (request_bytes conn) = Ok w ->
  json_Unmarshal_Request E (Request w) = Ok r ->
  Type_ r = ISSUE ->
  keys srv = k0 :: ks ->
  let x := HandleIssue E (conn_after_read conn) r k0 (G srv) (H srv)
             (MaxTokens srv) in
  nth_error (keys srv) 0 = Some k0 /\
  btd_calls (h_trace (snd (handle E (mkHState srv conn []))))
  = [CallIssue r k0 (G srv) (H srv) (MaxTokens srv)] /\
  fst (handle E (mkHState srv conn [])) = Returned (ir_err x) /\
  h_conn (snd (handle E (mkHState srv conn []))) = ir_conn x /\
  h_srv (snd (handle E (mkHState srv conn []))) = srv_after_issue E srv x.
Proof.
  intros Hp Hw Hr Ht Hk x. subst x. split; [rewrite Hk; reflexivity|].
  rewrite (handle_proceeds E (mkHState srv conn []) Hp). cbn [h_conn].
  rewrite (process_issue E _ (after_read (mkHState srv conn [])) Hw Hr Ht Hk).
  cbn [after_read h_srv h_conn h_trace fst snd].
  split; [|repeat split].
  cbn. destruct (ir_err _); reflexivity.
Qed.

(** C3: a redemption request reaches the verifier with the whole
    configured key sequence, in its order: the one call [handle] makes
    into package btd is [HandleRedeem] with [c.keys] itself, and
    [handle] returns what that call returns.  So, the verifier trying
    every key it is given, a token that verifies under any key still
    configured redeems: [handle] returns nil. *)
Theorem redeem_receives_all_keys (E : Env) (srv : Server (Point E))
    (conn : Conn) (w : BlindTokenRequestWrapper) (r : BlindTokenRequest) :
  read_proceeds conn = true ->
  json_Unmarshal_Wrapper E (request_bytes conn) = Ok w ->
  json_Unmarshal_Request E (Request w) = Ok r ->
  Type_ r = REDEEM ->
  let x := HandleRedeem E (conn_after_read conn) r (Host w) (Path w)
             (keys srv) in
  (exists passed,
     btd_calls (h_trace (snd (handle E (mkHState srv conn []))))
     = [CallRedeem r (Host w) (Path w) passed] /\
     passed = keys srv /\
     (forall i k, nth_error (keys srv) i = Some k ->
                  nth_error passed i = Some k)) /\
  fst (handle E (mkHState srv conn [])) = Returned (rr_err x) /\
  (rr_err x = None ->
   h_conn (snd (handle E (mkHState srv conn []))) = rr_conn x) /\
  (verifier_tries_every_key E ->
   forall k,
     In k (keys srv) ->
     rr_err (HandleRedeem E (conn_after_read conn) r (Host w) (Path w) [k])
     = None ->
     fst (handle E (mkHState srv conn [])) = Returned None).
Proof.
  intros Hp Hw Hr Ht x. subst x.
  rewrite (handle_proceeds E (mkHState srv conn []) Hp). cbn [h_conn].
  rewrite (process_redeem E _ (after_read (mkHState srv conn [])) Hw Hr Ht).
  cbn [after_read h_srv h_conn h_trace fst snd].
  split; [|split; [reflexivity|split]].
  - exists (keys srv). split; [|split; [reflexivity | auto]].
    cbn. destruct (rr_err _); reflexivity.
  - intros He. rewrite He. reflexivity.
  - intros Hv k Hin Hk. rewrite (Hv _ _ _ _ _ k Hin Hk). reflexivity.
Qed.

(** ** The server structure across a request *)

Lemma overwrite_same ks : overwrite ks ks = ks.
Proof. induction ks as [|k ks IH]; cbn; [reflexivity | now rewrite IH]. Qed.

Lemma overwrite_length old new : List.length (overwrite old new) = List.length old.
Proof.
  revert new. induction old as [|o old IH]; intros [|n new]; cbn; auto.
Qed.

Lemma srv_after_issue_read_only (E : Env) (c : Server (Point E)) conn r k0 ks :
  handlers_read_only E ->
  keys c = k0 :: ks ->
  srv_after_issue E c (HandleIssue E conn r k0 (G c) (H c) (MaxTokens c)) = c.
Proof.
  intros [Hi _] Hk. destruct (Hi conn r k0 (G c) (H c) (MaxTokens c)) as (H1 & H2 & H3).
  unfold srv_after_issue. rewrite H1, H2, H3, Hk.
  destruct c; cbn in *. now subst.
Qed.

Lemma srv_after_redeem_read_only (E : Env) (c : Server (Point E)) conn r host path :
  handlers_read_only E ->
  srv_after_redeem E c (HandleRedeem E conn r host path (keys c)) = c.
Proof.
  intros [_ Hr]. unfold srv_after_redeem. rewrite Hr, overwrite_same.
  destruct c; reflexivity.
Qed.

(** Whatever the handlers do, [handle] leaves the fields it does not
    hand out by reference as they are, and the number of keys. *)
Lemma handle_preserves_configuration (E : Env) (s : HState (Point E)) :
  let c := h_srv s in
  let c' := h_srv (snd (handle E s)) in
  BindAddress c' = BindAddress c /\
  ListenPort c' = ListenPort c /\
  MetricsPort c' = MetricsPort c /\
  MaxTokens c' = MaxTokens c /\
  KeyFilePath c' = KeyFilePath c /\
  CommFilePath c' = CommFilePath c /\
  List.length (keys c') = List.length (keys c).
Proof.
  cbn zeta.
  destruct (read_proceeds (h_conn s)) eqn:Hp.
  - rewrite (handle_proceeds E s Hp).
    destruct (process_paths E (request_bytes (h_conn s)) (after_read s));
      cbn; repeat split; try reflexivity.
    + match goal with H : keys _ = _ :: _ |- _ => cbn in H; rewrite H end.
      reflexivity.
    + apply overwrite_length.
  - destruct (handle_read_fails E s Hp) as (e & _ & He).
    rewrite He. cbn. repeat split; reflexivity.
Qed.

(** C9: handling a request leaves the server structure as it was: the
    configuration fields, the keys, G and H have the values they had
    before the call, the handlers of package btd only reading the key
    material they are handed. *)
Theorem handle_preserves_server (E : Env) (srv : Server (Point E))
    (conn : Conn) (tr : list (Event (Point E))) :
  handlers_read_only E ->
  h_srv (snd (handle E (mkHState srv conn tr))) = srv.
Proof.
  intros Hro.
  destruct (read_proceeds conn) eqn:Hp.
  - rewrite (handle_proceeds E (mkHState srv conn tr) Hp).
    destruct (process_paths E (request_bytes (h_conn (mkHState srv conn tr)))
                (after_read (mkHState srv conn tr))); cbn [snd h_srv after_read];
      try reflexivity.
    + subst c x. cbn [h_srv after_read] in *.
      eapply srv_after_issue_read_only; eassumption.
    + subst c x. cbn [h_srv after_read].
      apply srv_after_redeem_read_only; assumption.
  - destruct (handle_read_fails E (mkHState srv conn tr) Hp) as (e & _ & He).
    rewrite He. reflexivity.
Qed.

(** ** Time-outs and the size cap *)

(** C10: when the read ends in an i/o time-out with at least one byte in
    the buffer, [handle] returns no transport error: it runs
    [processRequest] on the bytes read, which is what it does on the same
    bytes when the peer closes the stream and the read ends normally,
    and counts no connection error.  A time-out with an empty buffer is
    returned as the error it is. *)
Theorem timeout_with_data_is_processed (E : Env) (srv : Server (Point E))
    (conn : Conn) (tr : list (Event (Point E))) (op : string) (inner : error) :
  rd_end conn = ReadFails (OpError op inner) ->
  Error inner = "i/o timeout" ->
  len (incoming conn) < maxRequestSize ->
  (incoming conn <> [] ->
     handle E (mkHState srv conn tr)
     = run (processRequest E (incoming conn))
           (after_read (mkHState srv conn tr)) /\
     handle E (mkHState srv (set_rd_end conn AtEOF) tr)
     = run (processRequest E (incoming conn))
           (after_read (mkHState srv (set_rd_end conn AtEOF) tr))) /\
  (incoming conn = [] ->
     handle E (mkHState srv conn tr)
     = (Returned (Some (OpError op inner)),
        add_events (after_read (mkHState srv conn tr)) [Inc CounterConnErrors])).
Proof.
  intros Hend Hto Hlt.
  assert (Hb : request_bytes conn = incoming conn)
    by (apply request_bytes_short; assumption).
  assert (He : read_error conn = Some (OpError op inner))
    by (rewrite read_error_short by assumption; rewrite Hend; reflexivity).
  split.
  - intros Hne. split.
    + rewrite <- Hb at 1. apply (handle_proceeds E (mkHState srv conn tr)).
      unfold read_proceeds. cbn [h_conn]. rewrite He, Hb. cbn. rewrite Hto. cbn.
      destruct (incoming conn); [contradiction | reflexivity].
    + change (incoming conn) with (incoming (set_rd_end conn AtEOF)) at 1.
      rewrite <- (request_bytes_short (set_rd_end conn AtEOF)) by assumption.
      apply (handle_proceeds E (mkHState srv (set_rd_end conn AtEOF) tr)).
      unfold read_proceeds. cbn [h_conn].
      rewrite read_error_short by assumption. reflexivity.
  - intros Hnil.
    destruct (handle_read_fails E (mkHState srv conn tr)) as (e & He' & Hh).
    + unfold read_proceeds. cbn [h_conn]. rewrite He, Hb, Hnil. cbn.
      apply andb_false_r.
    + cbn [h_conn] in He'. rewrite He in He'. inversion He'; subst. exact Hh.
Qed.

(** What [handle] does with a message longer than [maxRequestSize]: it
    reads the first [maxRequestSize] bytes and no more, and handles
    these bytes as the request, the read reporting no error; the bytes
    beyond the cap are still unread when decoding starts. *)
Lemma oversize_request_is_truncated (E : Env) (srv : Server (Point E))
    (conn : Conn) (tr : list (Event (Point E))) :
  maxRequestSize < len (incoming conn) ->
  handle E (mkHState srv conn tr)
  = run (processRequest E (firstn (Z.to_nat maxRequestSize) (incoming conn)))
        (after_read (mkHState srv conn tr)) /\
  len (firstn (Z.to_nat maxRequestSize) (incoming conn)) = maxRequestSize /\
  incoming (conn_after_read conn)
  = skipn (Z.to_nat maxRequestSize) (incoming conn).
Proof.
  intros Hlt. repeat split.
  - rewrite <- (request_bytes_long conn) by lia.
    apply (handle_proceeds E (mkHState srv conn tr)).
    unfold read_proceeds. cbn [h_conn]. rewrite read_error_long by lia.
    reflexivity.
  - unfold len in *. rewrite length_firstn. unfold maxRequestSize in *. lia.
  - unfold conn_after_read, io_Copy_LimitReader.
    cbn [incoming SetReadDeadline].
    destruct (Z.leb_spec maxRequestSize (len (incoming conn))); [reflexivity | lia].
Qed.

(** ** The response to a failed redemption *)

Lemma bytes_eqb_eq a b : bytes_eqb a b = true <-> a = b.
Proof.
  revert b. induction a as [|x a IH]; intros [|y b]; cbn;
    try (split; [discriminate | discriminate]); [tauto|].
  rewrite andb_true_iff, IH. split.
  - intros [Hxy ->]. apply Byte.byte_dec_bl in Hxy. now subst.
  - intros Heq. inversion Heq; subst. split; [|reflexivity].
    now apply Byte.byte_dec_lb.
Qed.

Lemma bytes_of_string_inj s t : bytes_of_string s = bytes_of_string t -> s = t.
Proof.
  unfold bytes_of_string. intros Heq.
  rewrite <- (string_of_list_byte_of_string s),
          <- (string_of_list_byte_of_string t).
  now rewrite Heq.
Qed.

(** C7: when the redemption handler returns an error, [handle] writes
    the text of that error on the connection, after whatever the handler
    wrote, and returns the error; the invoking layer accepts a payload
    as a successful verification only if it is the success marker, so a
    failure whose payload is the error text alone is accepted only if
    that text is the marker itself. *)
Theorem redeem_error_text_is_written (E : Env) (srv : Server (Point E))
    (conn : Conn) (w : BlindTokenRequestWrapper) (r : BlindTokenRequest)
    (e : error) :
  read_proceeds conn = true ->
  json_Unmarshal_Wrapper E (request_bytes conn) = Ok w ->
  json_Unmarshal_Request E (Request w) = Ok r ->
  Type_ r = REDEEM ->
  rr_err (HandleRedeem E (conn_after_read conn) r (Host w) (Path w) (keys srv))
  = Some e ->
  let x := HandleRedeem E (conn_after_read conn) r (Host w) (Path w) (keys srv) in
  let out := handle E (mkHState srv conn []) in
  fst out = Returned (Some e) /\
  written (h_conn (snd out))
  = (written (rr_conn x) ++ bytes_of_string (Error e))%list /\
  (forall payload, caller_accepts payload = true <-> payload = successMarker) /\
  (written (rr_conn x) = [] ->
   Error e <> "success" ->
   caller_accepts (written (h_conn (snd out))) = false).
Proof.
  intros Hp Hw Hr Ht He x out. subst out x.
  rewrite (handle_proceeds E (mkHState srv conn []) Hp). cbn [h_conn].
  rewrite (process_redeem E _ (after_read (mkHState srv conn [])) Hw Hr Ht).
  cbn [after_read h_srv h_conn h_trace fst snd]. rewrite He.
  cbn [written conn_Write].
  split; [reflexivity|]. split; [reflexivity|]. split.
  - intros payload. apply bytes_eqb_eq.
  - intros Hnil Hne. rewrite Hnil. cbn [app].
    destruct (caller_accepts (bytes_of_string (Error e))) eqn:Hc; [|reflexivity].
    apply bytes_eqb_eq in Hc. apply bytes_of_string_inj in Hc. contradiction.
Qed.

(** ** The accept loop *)

Section LoopFacts.
Context (E : Env).

(** With a key configured, [handle] returns. *)
Lemma handle_returns (s : HState (Point E)) :
  keys (h_srv s) <> [] ->
  exists err s', handle E s = (Returned err, s').
Proof.
  intros Hk.
  destruct (read_proceeds (h_conn s)) eqn:Hp.
  - rewrite (handle_proceeds E s Hp).
    destruct (process_paths E (request_bytes (h_conn s)) (after_read s));
      try (eexists; eexists; reflexivity).
    cbn in *. contradiction.
  - destruct (handle_read_fails E s Hp) as (e & _ & He).
    rewrite He. eexists; eexists; reflexivity.
Qed.

(** An error returned by [handle] has been counted on the way. *)
Lemma handle_error_counted (s s' : HState (Point E)) e :
  handle E s = (Returned (Some e), s') ->
  exists c evs,
    is_error_counter c = true /\
    h_trace s' = (h_trace s ++ evs)%list /\
    In (Inc c) evs.
Proof.
  destruct (read_proceeds (h_conn s)) eqn:Hp.
  - rewrite (handle_proceeds E s Hp).
    destruct (process_paths E (request_bytes (h_conn s)) (after_read s));
      intros Heq; inversion Heq; subst; clear Heq; cbn [add_events after_read h_trace].
    + exists CounterJsonError, [Inc CounterConnections; Inc CounterJsonError].
      rewrite <- app_assoc. cbn. auto.
    + exists CounterJsonError, [Inc CounterConnections; Inc CounterJsonError].
      rewrite <- app_assoc. cbn. auto.
    + match goal with H : ir_err _ = Some _ |- _ => cbn in H; rewrite H end.
      eexists CounterIssueError, _. rewrite <- app_assoc.
      split; [reflexivity|]. split; [reflexivity|]. cbn. auto.
    + match goal with H : rr_err _ = Some _ |- _ => cbn in H; rewrite H end.
      eexists CounterRedeemError, _. rewrite <- app_assoc.
      split; [reflexivity|]. split; [reflexivity|]. cbn. auto.
    + eexists CounterUnknownRequestType, _. rewrite <- app_assoc.
      split; [reflexivity|]. split; [reflexivity|]. cbn. auto.
  - destruct (handle_read_fails E s Hp) as (e' & _ & He).
    rewrite He. intros Heq; inversion Heq; subst; clear Heq.
    exists CounterConnErrors, [Inc CounterConnections; Inc CounterConnErrors].
    cbn. rewrite <- app_assoc. cbn. auto.
Qed.

Lemma handle_keeps_keys (s : HState (Point E)) :
  keys (h_srv s) <> [] -> keys (h_srv (snd (handle E s))) <> [].
Proof.
  intros Hk Hnil.
  pose proof (handle_preserves_configuration E s) as Hc. cbn zeta in Hc.
  destruct Hc as (_ & _ & _ & _ & _ & _ & Hlen).
  rewrite Hnil in Hlen. destruct (keys (h_srv s)); [congruence | discriminate].
Qed.

(** What one turn of the loop does with an accepted connection. *)
Lemma serve_accepted (p : Process (Point E)) conn err s :
  handle E (mkHState (p_srv p) (SetKeepAlive (1 * Minute) conn) (p_trace p))
  = (Returned err, s) ->
  serve E p (Accepted conn)
  = Running
      (mkProcess (h_srv s)
         (h_trace s ++ match err with
                       | Some e => [Printf (Error e)]
                       | None => []
                       end)%list
         (1 * Millisecond)
         (p_done p ++ [conn_Close (h_conn s)])%list).
Proof. intros Hh. unfold serve. rewrite Hh. reflexivity. Qed.

Lemma serve_keeps_running (p : Process (Point E)) a :
  keys (p_srv p) <> [] ->
  exists p', serve E p a = Running p' /\ keys (p_srv p') <> [].
Proof.
  intros Hk. destruct a as [conn | e temporary].
  - destruct (handle_returns
                (mkHState (p_srv p) (SetKeepAlive (1 * Minute) conn) (p_trace p)) Hk)
      as (err & s & Hh).
    rewrite (serve_accepted p conn Hh). eexists; split; [reflexivity|].
    cbn [p_srv].
    pose proof (handle_keeps_keys
                  (mkHState (p_srv p) (SetKeepAlive (1 * Minute) conn) (p_trace p)) Hk)
      as Hk'.
    rewrite Hh in Hk'. exact Hk'.
  - cbn. eexists; split; [reflexivity | exact Hk].
Qed.

Lemma acceptLoop_keeps_running accepts : forall p : Process (Point E),
  keys (p_srv p) <> [] ->
  exists p', acceptLoop E p accepts = Running p' /\ keys (p_srv p') <> [].
Proof.
  induction accepts as [|a rest IH]; intros p Hk; cbn [acceptLoop].
  - exists p. split; [reflexivity | exact Hk].
  - destruct (serve_keeps_running p a Hk) as (p' & Hs & Hk').
    rewrite Hs. apply IH, Hk'.
Qed.

Lemma acceptLoop_app before : forall (p p1 : Process (Point E)) rest,
  acceptLoop E p before = Running p1 ->
  acceptLoop E p (before ++ rest) = acceptLoop E p1 rest.
Proof.
  induction before as [|a before IH]; intros p p1 rest Hb; cbn [acceptLoop app] in *.
  - inversion Hb; subst. reflexivity.
  - destruct (serve E p a) as [e | p' | p']; try discriminate.
    apply IH, Hb.
Qed.

(** [ListenAndServe] is its set-up followed by the loop. *)
Lemma ListenAndServe_loop (c : Server (Point E)) p0 :
  ListenAndServe E c [] = Running p0 ->
  keys (p_srv p0) <> [] /\
  forall accepts, ListenAndServe E c accepts = acceptLoop E p0 accepts.
Proof.
  unfold ListenAndServe.
  destruct (Z.eqb_spec (len (keys c)) 0) as [Hz|Hz]; [discriminate|].
  destruct (net_ResolveTCPAddr E _) as [tcpAddr|e]; [|discriminate].
  destruct (net_ListenTCP E tcpAddr) as [e|]; [discriminate|].
  cbn [acceptLoop]. intros Heq. inversion Heq; subst; clear Heq. cbn [p_srv].
  split; [|reflexivity].
  intros Hnil. rewrite Hnil in Hz. apply Hz. reflexivity.
Qed.

End LoopFacts.

(** C6: once the server listens, whatever a connection carries, the
    error its request ends in is counted and logged, the connection is
    closed, and the loop goes on to the connections that follow: after
    any number of further connections [ListenAndServe] is still
    accepting, it has neither returned nor crashed. *)
Theorem request_errors_are_recovered (E : Env) (c : Server (Point E))
    (p0 : Process (Point E)) (before after : list Accept) (conn : Conn) :
  ListenAndServe E c [] = Running p0 ->
  exists p1 err s p2 p3,
    ListenAndServe E c before = Running p1 /\
    handle E (mkHState (p_srv p1) (SetKeepAlive (1 * Minute) conn) (p_trace p1))
    = (Returned err, s) /\
    ListenAndServe E c (before ++ [Accepted conn]) = Running p2 /\
    (forall e, err = Some e ->
       (exists cnt evs, is_error_counter cnt = true /\
                        h_trace s = (p_trace p1 ++ evs)%list /\
                        In (Inc cnt) evs) /\
       p_trace p2 = (h_trace s ++ [Printf (Error e)])%list) /\
    p_done p2 = (p_done p1 ++ [conn_Close (h_conn s)])%list /\
    closed (conn_Close (h_conn s)) = true /\
    ListenAndServe E c (before ++ Accepted conn :: after) = Running p3 /\
    acceptLoop E p2 after = Running p3.
Proof.
  intros H0. destruct (ListenAndServe_loop E c H0) as (Hk0 & Hloop).
  destruct (acceptLoop_keeps_running E before p0 Hk0) as (p1 & Hb & Hk1).
  destruct (handle_returns E
              (mkHState (p_srv p1) (SetKeepAlive (1 * Minute) conn) (p_trace p1)) Hk1)
    as (err & s & Hh).
  pose proof (serve_accepted E p1 conn Hh) as Hs.
  destruct (serve_keeps_running E p1 (Accepted conn) Hk1) as (p2 & Hs2 & Hk2).
  destruct (acceptLoop_keeps_running E after p2 Hk2) as (p3 & Ha & _).
  exists p1, err, s, p2, p3.
  assert (Hp2 : p2 = mkProcess (h_srv s)
             (h_trace s ++ match err with
                           | Some e => [Printf (Error e)]
                           | None => []
                           end)%list
             (1 * Millisecond) (p_done p1 ++ [conn_Close (h_conn s)])%list)
    by congruence.
  split; [rewrite Hloop; exact Hb|].
  split; [exact Hh|].
  split.
  { rewrite Hloop, (acceptLoop_app E before p0 [Accepted conn] Hb).
    cbn [acceptLoop]. rewrite Hs2. reflexivity. }
  split.
  { intros e ->. split.
    - destruct (handle_error_counted E _ Hh) as (cnt & evs & Hc & Ht & Hin).
      exists cnt, evs. auto.
    - rewrite Hp2. reflexivity. }
  split; [rewrite Hp2; reflexivity|].
  split; [reflexivity|].
  split; [|exact Ha].
  rewrite Hloop, (acceptLoop_app E before p0 (Accepted conn :: after) Hb).
  cbn [acceptLoop]. rewrite Hs2. exact Ha.
Qed.

(** ** Start-up *)

(** [loadConfigFile] hands back the defaults and an error, whatever the
    file holds: the decoder is given the structure, not a pointer to it. *)
Lemma loadConfigFile_fails (E : Env) (filePath : string) :
  exists e, loadConfigFile E filePath = (DefaultServer, Some e).
Proof.
  unfold loadConfigFile.
  destruct (ioutil_ReadFile E filePath) as [data|e].
  - unfold json_Unmarshal_Server_value.
    destruct (json_checkValid E data) as [e|]; eexists; reflexivity.
  - eexists; reflexivity.
Qed.

(** C8, on the code: with a configuration file named on the command
    line, [loadConfigFile] returns the default server together with an
    error, no field reflecting the file, and [main] stops on that error
    before anything else happens. *)
Theorem config_file_is_never_applied (E : Env) (f : Flags)
    (accepts : list Accept) :
  flag_config f <> "" ->
  exists e,
    loadConfigFile E (flag_config f) = (DefaultServer, Some e) /\
    main E f accepts = Fatal e.
Proof.
  intros Hc. destruct (loadConfigFile_fails E (flag_config f)) as (e & He).
  exists e. split; [exact He|].
  unfold main. cbn zeta.
  destruct (String.eqb_spec (flag_config f) ""); [contradiction|].
  cbn [negb]. rewrite He. reflexivity.
Qed.

Lemma loadKeys_ok (E : Env) (c srv : Server (Point E)) :
  loadKeys E c = (srv, None) ->
  KeyFilePath c <> "" /\ CommFilePath c <> "" /\
  exists ks, ParseKeyFile E (KeyFilePath c) = Ok ks /\ srv = set_keys E c ks.
Proof.
  unfold loadKeys.
  destruct (String.eqb_spec (KeyFilePath c) ""); [discriminate|].
  destruct (String.eqb_spec (CommFilePath c) ""); [discriminate|].
  destruct (ParseKeyFile E (KeyFilePath c)) as [ks|e]; [|discriminate].
  intros Heq; inversion Heq; subst. eauto.
Qed.

Lemma RetrieveCommPoints_ok (E : Env) GBytes HBytes k0 g h :
  RetrieveCommPoints E GBytes HBytes k0 = Ok (g, h) ->
  unmarshalPoint E GBytes = Ok g /\
  unmarshalPoint E HBytes = Ok h /\
  h = scalarMult E k0 g.
Proof.
  unfold RetrieveCommPoints.
  destruct (unmarshalPoint E GBytes) as [g'|e]; [|discriminate].
  destruct (unmarshalPoint E HBytes) as [h'|e]; [|discriminate].
  destruct (Point_eqb E (scalarMult E k0 g') h') eqn:Heq; [|discriminate].
  intros Hok; inversion Hok; subst.
  apply (Point_eqb_eq E) in Heq. auto.
Qed.

Lemma RetrieveCommPoints_mismatch (E : Env) GBytes HBytes k0 g h :
  unmarshalPoint E GBytes = Ok g ->
  unmarshalPoint E HBytes = Ok h ->
  scalarMult E k0 g <> h ->
  RetrieveCommPoints E GBytes HBytes k0 = Err ErrCommitmentMismatch.
Proof.
  intros Hg Hh Hne. unfold RetrieveCommPoints. rewrite Hg, Hh.
  destruct (Point_eqb E (scalarMult E k0 g) h) eqn:Heq; [|reflexivity].
  apply (Point_eqb_eq E) in Heq. contradiction.
Qed.

(** [main] from the point where the keys are loaded. *)
Lemma main_after_loadKeys (E : Env) (f : Flags) accepts srv k0 ks :
  flag_config f = "" ->
  loadKeys E (server_of_flags E f) = (srv, None) ->
  keys srv = k0 :: ks ->
  main E f accepts
  = match ParseCommitmentFile E (CommFilePath srv) with
    | Err e => Fatal e
    | Ok (GBytes, HBytes) =>
        match RetrieveCommPoints E GBytes HBytes k0 with
        | Err e => Fatal e
        | Ok (g, h) =>
            match ListenAndServe E (set_GH E srv (Some g) (Some h)) accepts with
            | ReturnedErr e => Fatal e
            | Running p => Serving p
            | Crashed p => ServingCrashed p
            end
        end
    end.
Proof.
  intros Hc Hl Hk. unfold main. cbn zeta. rewrite Hc. cbn [String.eqb negb andb].
  destruct (loadKeys_ok E _ Hl) as (Hkey & Hcomm & _).
  destruct (String.eqb_spec (KeyFilePath (server_of_flags E f)) "");
    [contradiction|].
  destruct (String.eqb_spec (CommFilePath (server_of_flags E f)) "");
    [contradiction|].
  cbn [orb]. rewrite Hl.
  destruct (ParseCommitmentFile E (CommFilePath srv)) as [[GBytes HBytes]|e];
    [|reflexivity].
  rewrite Hk. reflexivity.
Qed.

Lemma serve_not_returned (E : Env) (p : Process (Point E)) a e :
  serve E p a <> ReturnedErr e.
Proof.
  destruct a as [conn | e' t]; cbn; [|discriminate].
  destruct (handle E _) as [[err|] s]; discriminate.
Qed.

Lemma acceptLoop_not_returned (E : Env) accepts :
  forall (p : Process (Point E)) e, acceptLoop E p accepts <> ReturnedErr e.
Proof.
  induction accepts as [|a rest IH]; intros p e; cbn [acceptLoop];
    [discriminate|].
  destruct (serve E p a) as [e' | p' | p'] eqn:Hs;
    [exfalso; exact (serve_not_returned E p a Hs) | apply IH | discriminate].
Qed.

(** [ListenAndServe] returns an error only out of its set-up. *)
Lemma ListenAndServe_started (E : Env) (c : Server (Point E)) accepts :
  (forall e, ListenAndServe E c accepts <> ReturnedErr e) ->
  exists p0,
    ListenAndServe E c [] = Running p0 /\ p_srv p0 = c /\ p_done p0 = [].
Proof.
  unfold ListenAndServe.
  destruct (len (keys c) =? 0); [intros Hn; exfalso; exact (Hn _ eq_refl)|].
  destruct (net_ResolveTCPAddr E _) as [tcpAddr|e];
    [|intros Hn; exfalso; exact (Hn _ eq_refl)].
  destruct (net_ListenTCP E tcpAddr) as [e|];
    [intros Hn; exfalso; exact (Hn _ eq_refl)|].
  intros _. cbn [acceptLoop]. eexists. repeat split.
Qed.

Lemma main_serves_inv (E : Env) (f : Flags) accepts :
  serves (main E f accepts) = true ->
  exists srv k0 ks,
    flag_config f = "" /\
    loadKeys E (server_of_flags E f) = (srv, None) /\
    keys srv = k0 :: ks.
Proof.
  unfold main. cbn zeta.
  destruct (String.eqb_spec (flag_config f) "") as [Hc|Hc]; cbn [negb andb].
  - destruct (_ || _); [discriminate|].
    destruct (loadKeys E (server_of_flags E f)) as [srv [e|]] eqn:Hl;
      [discriminate|].
    destruct (ParseCommitmentFile E (CommFilePath srv)) as [[GBytes HBytes]|e];
      [|discriminate].
    destruct (keys srv) as [|k0 ks] eqn:Hk; [discriminate|].
    intros _. exists srv, k0, ks. auto.
  - destruct (loadConfigFile_fails E (flag_config f)) as (e & He).
    rewrite He. discriminate.
Qed.

(** C4: [main] reaches the accept loop only with a server whose
    commitment has been retrieved and checked: the commitment file was
    parsed, both points decoded, and H equals k0*G for the key at index
    0; this holds at the moment it starts listening, before any
    connection is accepted.  If parsing the commitment file, decoding a
    point or the comparison fails, [main] ends in the fatal exit with
    that error, however many connections are waiting. *)
Theorem commitment_checked_before_listening (E : Env) (f : Flags)
    (accepts : list Accept) :
  (serves (main E f accepts) = true ->
   exists srv k0 ks g h GBytes HBytes p0,
     ParseCommitmentFile E (CommFilePath srv) = Ok (GBytes, HBytes) /\
     RetrieveCommPoints E GBytes HBytes k0 = Ok (g, h) /\
     keys srv = k0 :: ks /\
     G srv = Some g /\
     H srv = Some h /\
     h = scalarMult E k0 g /\
     main E f [] = Serving p0 /\
     p_srv p0 = srv /\
     p_done p0 = []) /\
  (forall srv k0 ks,
     flag_config f = "" ->
     loadKeys E (server_of_flags E f) = (srv, None) ->
     keys srv = k0 :: ks ->
     (forall e,
        ParseCommitmentFile E (CommFilePath srv) = Err e ->
        main E f accepts = Fatal e) /\
     (forall GBytes HBytes e,
        ParseCommitmentFile E (CommFilePath srv) = Ok (GBytes, HBytes) ->
        RetrieveCommPoints E GBytes HBytes k0 = Err e ->
        main E f accepts = Fatal e) /\
     (forall GBytes HBytes g h,
        ParseCommitmentFile E (CommFilePath srv) = Ok (GBytes, HBytes) ->
        unmarshalPoint E GBytes = Ok g ->
        unmarshalPoint E HBytes = Ok h ->
        scalarMult E k0 g <> h ->
        main E f accepts = Fatal ErrCommitmentMismatch)).
Proof.
  split.
  - intros Hs.
    destruct (main_serves_inv E f accepts Hs) as (srv & k0 & ks & Hc & Hl & Hk).
    rewrite (main_after_loadKeys E f accepts Hc Hl Hk) in Hs.
    rewrite (main_after_loadKeys E f [] Hc Hl Hk).
    destruct (ParseCommitmentFile E (CommFilePath srv)) as [[GBytes HBytes]|e]
      eqn:Hp; [|discriminate].
    destruct (RetrieveCommPoints E GBytes HBytes k0) as [[g h]|e] eqn:Hr;
      [|discriminate].
    destruct (RetrieveCommPoints_ok E _ _ _ Hr) as (_ & _ & Hh).
    destruct (ListenAndServe_started E (set_GH E srv (Some g) (Some h)) accepts)
      as (p0 & H0 & Hsrv & Hdone).
    { intros e He. rewrite He in Hs. discriminate. }
    exists (set_GH E srv (Some g) (Some h)), k0, ks, g, h, GBytes, HBytes, p0.
    rewrite H0. cbn [set_GH CommFilePath keys G H]. auto 10.
  - intros srv k0 ks Hc Hl Hk.
    rewrite (main_after_loadKeys E f accepts Hc Hl Hk).
    split; [|split].
    + intros e He. rewrite He. reflexivity.
    + intros GBytes HBytes e Hp Hr. rewrite Hp, Hr. reflexivity.
    + intros GBytes HBytes g h Hp Hg Hh Hne.
      rewrite Hp, (RetrieveCommPoints_mismatch E _ _ _ Hg Hh Hne). reflexivity.
Qed.

(* ================================================================== *)
(** * Runs on concrete inputs *)
(* ================================================================== *)

Lemma sample_handlers_read_only : handlers_read_only Sample.env.
Proof.
  split.
  - intros c r k g h m. cbn. unfold Sample.HandleIssue.
    destruct (len (Contents r) =? 0); [cbn; auto|].
    destruct (m <? len (Contents r)); cbn; auto.
  - intros c r host path ks. cbn. unfold Sample.HandleRedeem.
    destruct (Contents r) as [|t [|tag [|x l]]]; try reflexivity.
    destruct (existsb _ ks); reflexivity.
Qed.

(** A handler that writes through the slice it is handed changes the
    server's key: the frame property of [handle] rests on the handlers. *)
Example scribbling_handler_changes_key :
  keys (h_srv (snd (handle Sample.env_scribbling
                      (mkHState Sample.srv
                         (Sample.conn_of Sample.issue_msg AtEOF) []))))
  = [[x00]; Sample.key3].
Proof. vm_compute. reflexivity. Qed.


Lemma issue_uses_primary_key_witness :
  let x := HandleIssue Sample.env
             (conn_after_read
                (Sample.conn_of Sample.issue_msg (ReadFails Sample.i_o_timeout)))
             Sample.issue_req Sample.key7 (Some 1) (Some 7) 100 in
  let out := handle Sample.env
               (mkHState Sample.srv
                  (Sample.conn_of Sample.issue_msg
                     (ReadFails Sample.i_o_timeout)) []) in
  nth_error (keys Sample.srv) 0 = Some Sample.key7 /\
  btd_calls (h_trace (snd out))
  = [CallIssue Sample.issue_req Sample.key7 (Some 1) (Some 7) 100] /\
  fst out = Returned (ir_err x) /\
  h_conn (snd out) = ir_conn x /\
  h_srv (snd out) = srv_after_issue Sample.env Sample.srv x.
Proof.
  apply (@issue_uses_primary_key Sample.env Sample.srv
           (Sample.conn_of Sample.issue_msg (ReadFails Sample.i_o_timeout))
           (Sample.envelope Sample.issue_inner) Sample.issue_req
           Sample.key7 [Sample.key3]);
    vm_compute; reflexivity.
Defined.

Lemma sample_verifier_tries_every_key : verifier_tries_every_key Sample.env.
Proof.
  intros conn r host path ks k Hin. cbn. unfold Sample.HandleRedeem.
  destruct (Contents r) as [|t [|tag [|y l]]]; try discriminate.
  cbn [existsb]. rewrite orb_false_r.
  destruct (bytes_eqb (Sample.tag_of k t host path) tag) eqn:Hk;
    [|discriminate].
  intros _.
  assert (Hex : existsb (fun k' => bytes_eqb (Sample.tag_of k' t host path) tag) ks
                = true)
    by (apply existsb_exists; exists k; auto).
  rewrite Hex. reflexivity.
Qed.

Lemma redeem_receives_all_keys_witness :
  let x := HandleRedeem Sample.env
             (conn_after_read (Sample.conn_of Sample.redeem_msg AtEOF))
             Sample.redeem_req "example.com" "/a" (keys Sample.srv) in
  let out := handle Sample.env
               (mkHState Sample.srv
                  (Sample.conn_of Sample.redeem_msg AtEOF) []) in
  (exists passed,
     btd_calls (h_trace (snd out))
     = [CallRedeem Sample.redeem_req "example.com" "/a" passed] /\
     passed = [Sample.key7; Sample.key3] /\
     (forall i k, nth_error (keys Sample.srv) i = Some k ->
                  nth_error passed i = Some k)) /\
  fst out = Returned (rr_err x) /\
  (rr_err x = None -> h_conn (snd out) = rr_conn x) /\
  fst out = Returned None.
Proof.
  refine ((fun H =>
             conj (proj1 H)
               (conj (proj1 (proj2 H))
                  (conj (proj1 (proj2 (proj2 H)))
                     (proj2 (proj2 (proj2 H))
                        sample_verifier_tries_every_key Sample.key3 _ _))))
            (@redeem_receives_all_keys Sample.env Sample.srv
               (Sample.conn_of Sample.redeem_msg AtEOF)
               (Sample.envelope Sample.redeem_inner) Sample.redeem_req
               _ _ _ _));
    vm_compute; try reflexivity.
  right. left. reflexivity.
Defined.

(** A token tagged under the older key redeems while that key is
    configured, and no longer once it is removed. *)
Example redeem_under_rotated_key :
  fst (handle Sample.env
         (mkHState Sample.srv (Sample.conn_of Sample.redeem_msg AtEOF) []))
  = Returned None /\
  fst (handle Sample.env
         (mkHState (set_keys Sample.env Sample.srv [Sample.key7])
            (Sample.conn_of Sample.redeem_msg AtEOF) []))
  = Returned (Some (errorString "VerifyFailed")).
Proof. split; vm_compute; reflexivity. Qed.

Lemma commitment_checked_before_listening_witness :
  (exists srv k0 ks g h GBytes HBytes p0,
     ParseCommitmentFile Sample.env (CommFilePath srv) = Ok (GBytes, HBytes) /\
     RetrieveCommPoints Sample.env GBytes HBytes k0 = Ok (g, h) /\
     keys srv = k0 :: ks /\
     G srv = Some g /\
     H srv = Some h /\
     h = scalarMult Sample.env k0 g /\
     main Sample.env Sample.flags_good [] = Serving p0 /\
     p_srv p0 = srv /\
     p_done p0 = []) /\
  main Sample.env Sample.flags_wrong_commitment
       [Accepted (Sample.conn_of Sample.issue_msg AtEOF)]
  = Fatal ErrCommitmentMismatch.
Proof.
  split.
  - apply (proj1 (commitment_checked_before_listening Sample.env
                    Sample.flags_good
                    [Accepted (Sample.conn_of Sample.issue_msg AtEOF)])).
    vm_compute. reflexivity.
  - refine (proj2 (proj2
              (proj2 (commitment_checked_before_listening Sample.env
                        Sample.flags_wrong_commitment
                        [Accepted (Sample.conn_of Sample.issue_msg AtEOF)])
                 (set_keys Sample.env
                    (server_of_flags Sample.env Sample.flags_wrong_commitment)
                    [Sample.key7; Sample.key3])
                 Sample.key7 [Sample.key3] _ _ _))
              [x01] [x05] 1 5 _ _ _ _);
      vm_compute; try reflexivity.
    discriminate.
Defined.

Lemma oversize_request_is_truncated_witness :
  handle Sample.env
    (mkHState Sample.srv (Sample.conn_of Sample.oversize_msg AtEOF) [])
  = run (processRequest Sample.env
           (firstn (Z.to_nat maxRequestSize) Sample.oversize_msg))
        (after_read
           (mkHState Sample.srv (Sample.conn_of Sample.oversize_msg AtEOF) [])) /\
  len (firstn (Z.to_nat maxRequestSize) Sample.oversize_msg) = maxRequestSize /\
  incoming (conn_after_read (Sample.conn_of Sample.oversize_msg AtEOF))
  = skipn (Z.to_nat maxRequestSize) Sample.oversize_msg.
Proof.
  apply (@oversize_request_is_truncated Sample.env Sample.srv
           (Sample.conn_of Sample.oversize_msg AtEOF) []).
  vm_compute. reflexivity.
Defined.

(** C5 on the code: a message of 20510 bytes is not rejected.  It is
    an issuance request of 110 bytes, white space up to byte 20480, and
    thirty more bytes.  The read stops at the cap without an error, the
    20480 bytes read are a JSON document, the issuance handler is called
    on it and signs, and [handle] returns nil: no path returns
    [ErrRequestTooLarge]. *)
Theorem oversize_request_is_processed :
  len Sample.oversize_msg = 20510 /\
  maxRequestSize < len (incoming (Sample.conn_of Sample.oversize_msg AtEOF)) /\
  json_Unmarshal_Wrapper Sample.env
    (request_bytes (Sample.conn_of Sample.oversize_msg AtEOF))
  = Ok (Sample.envelope Sample.issue_inner) /\
  fst (handle Sample.env
         (mkHState Sample.srv (Sample.conn_of Sample.oversize_msg AtEOF) []))
  = Returned None /\
  btd_calls
    (h_trace (snd (handle Sample.env
       (mkHState Sample.srv (Sample.conn_of Sample.oversize_msg AtEOF) []))))
  = [CallIssue Sample.issue_req Sample.key7 (Some 1) (Some 7) 100] /\
  written (h_conn (snd (handle Sample.env
         (mkHState Sample.srv (Sample.conn_of Sample.oversize_msg AtEOF) []))))
  = bytes_of_string "signed" /\
  ~ rejected_without_processing Sample.env Sample.srv
      (Sample.conn_of Sample.oversize_msg AtEOF).
Proof.
  split; [vm_compute; reflexivity|].
  split; [vm_compute; reflexivity|].
  split; [vm_compute; reflexivity|].
  split; [vm_compute; reflexivity|].
  split; [vm_compute; reflexivity|].
  split; [vm_compute; reflexivity|].
  intros (e & Hret & _). vm_compute in Hret. discriminate.
Qed.

Lemma request_errors_are_recovered_witness :
  exists p1 err s p2 p3,
    ListenAndServe Sample.env Sample.srv
      [Accepted (Sample.conn_of Sample.issue_msg AtEOF)] = Running p1 /\
    handle Sample.env
      (mkHState (p_srv p1)
         (SetKeepAlive (1 * Minute) (Sample.conn_of Sample.bad_redeem_msg AtEOF))
         (p_trace p1))
    = (Returned err, s) /\
    ListenAndServe Sample.env Sample.srv
      ([Accepted (Sample.conn_of Sample.issue_msg AtEOF)]
         ++ [Accepted (Sample.conn_of Sample.bad_redeem_msg AtEOF)])
    = Running p2 /\
    (forall e, err = Some e ->
       (exists cnt evs, is_error_counter cnt = true /\
                        h_trace s = (p_trace p1 ++ evs)%list /\
                        In (Inc cnt) evs) /\
       p_trace p2 = (h_trace s ++ [Printf (Error e)])%list) /\
    p_done p2 = (p_done p1 ++ [conn_Close (h_conn s)])%list /\
    closed (conn_Close (h_conn s)) = true /\
    ListenAndServe Sample.env Sample.srv
      ([Accepted (Sample.conn_of Sample.issue_msg AtEOF)]
         ++ Accepted (Sample.conn_of Sample.bad_redeem_msg AtEOF)
         :: [Accepted (Sample.conn_of Sample.redeem_msg AtEOF)])
    = Running p3 /\
    acceptLoop Sample.env p2
      [Accepted (Sample.conn_of Sample.redeem_msg AtEOF)] = Running p3.
Proof.
  eapply (@request_errors_are_recovered Sample.env Sample.srv).
  vm_compute. reflexivity.
Defined.

Lemma redeem_error_text_is_written_witness :
  let x := HandleRedeem Sample.env
             (conn_after_read (Sample.conn_of Sample.bad_redeem_msg AtEOF))
             Sample.bad_redeem_req "example.com" "/a" (keys Sample.srv) in
  let out := handle Sample.env
               (mkHState Sample.srv
                  (Sample.conn_of Sample.bad_redeem_msg AtEOF) []) in
  fst out = Returned (Some (errorString "VerifyFailed")) /\
  written (h_conn (snd out))
  = (written (rr_conn x) ++ bytes_of_string "VerifyFailed")%list /\
  (forall payload, caller_accepts payload = true <-> payload = successMarker) /\
  (written (rr_conn x) = [] ->
   "VerifyFailed" <> "success" ->
   caller_accepts (written (h_conn (snd out))) = false).
Proof.
  apply (@redeem_error_text_is_written Sample.env Sample.srv
           (Sample.conn_of Sample.bad_redeem_msg AtEOF)
           (Sample.envelope Sample.bad_redeem_inner) Sample.bad_redeem_req
           (errorString "VerifyFailed"));
    vm_compute; reflexivity.
Defined.

Lemma config_file_is_never_applied_witness :
  exists e,
    loadConfigFile Sample.env "btd.json" = (DefaultServer, Some e) /\
    main Sample.env Sample.flags_config
         [Accepted (Sample.conn_of Sample.issue_msg AtEOF)]
    = Fatal e.
Proof.
  apply (config_file_is_never_applied Sample.env Sample.flags_config
           [Accepted (Sample.conn_of Sample.issue_msg AtEOF)]).
  vm_compute. discriminate.
Defined.

(** The failing input of C8 evaluated: the file sets the listen port to
    9000; the server returned has the default port and comes with the
    decoder's complaint about its target. *)
Example loadConfigFile_on_listen_port :
  ioutil_ReadFile Sample.env "btd.json" = Ok Sample.configJSON /\
  loadConfigFile Sample.env "btd.json"
  = (DefaultServer,
     Some (errorString "json: Unmarshal(non-pointer main.Server)")) /\
  ListenPort (fst (loadConfigFile Sample.env "btd.json")) = 2416.
Proof. repeat split. Qed.

Lemma handle_preserves_server_witness :
  h_srv (snd (handle Sample.env
                (mkHState Sample.srv
                   (Sample.conn_of Sample.issue_msg AtEOF) [])))
  = Sample.srv.
Proof.
  apply (@handle_preserves_server Sample.env Sample.srv
           (Sample.conn_of Sample.issue_msg AtEOF) []).
  exact sample_handlers_read_only.
Defined.

Lemma timeout_with_data_is_processed_witness :
  handle Sample.env
    (mkHState Sample.srv
       (Sample.conn_of Sample.issue_msg (ReadFails Sample.i_o_timeout)) [])
  = run (processRequest Sample.env Sample.issue_msg)
        (after_read
           (mkHState Sample.srv
              (Sample.conn_of Sample.issue_msg (ReadFails Sample.i_o_timeout))
              [])) /\
  handle Sample.env
    (mkHState Sample.srv (Sample.conn_of [] (ReadFails Sample.i_o_timeout)) [])
  = (Returned (Some Sample.i_o_timeout),
     add_events
       (after_read
          (mkHState Sample.srv
             (Sample.conn_of [] (ReadFails Sample.i_o_timeout)) []))
       [Inc CounterConnErrors]).
Proof.
  split.
  - refine (proj1 (proj1 (@timeout_with_data_is_processed Sample.env Sample.srv
                     (Sample.conn_of Sample.issue_msg
                        (ReadFails Sample.i_o_timeout)) []
                     "read tcp 127.0.0.1:2416" (errorString "i/o timeout")
                     _ _ _) _));
      vm_compute; try reflexivity; discriminate.
  - refine (proj2 (@timeout_with_data_is_processed Sample.env Sample.srv
                     (Sample.conn_of [] (ReadFails Sample.i_o_timeout)) []
                     "read tcp 127.0.0.1:2416" (errorString "i/o timeout")
                     _ _ _) _);
      vm_compute; reflexivity.
Defined.

(* ================================================================== *)
(** * Further properties of the handler *)
(* ================================================================== *)

Lemma incs_app {P : Type} (a b : list (Event P)) :
  incs (a ++ b) = (incs a ++ incs b)%list.
Proof.
  induction a as [|ev a IH]; [reflexivity|].
  destruct ev; cbn; rewrite ?IH; reflexivity.
Qed.

Lemma sleeps_app {P : Type} (a b : list (Event P)) :
  sleeps (a ++ b) = (sleeps a ++ sleeps b)%list.
Proof.
  induction a as [|ev a IH]; [reflexivity|].
  destruct ev; cbn; rewrite ?IH; reflexivity.
Qed.

(** The events of a run of [handle] do not depend on the events before
    it: started after [tr], it appends to [tr] what it emits when started
    on an empty record, and ends in the same way. *)
Lemma processRequest_trace_frame (E : Env) buf (srv : Server (Point E)) conn tr :
  run (processRequest E buf) (mkHState srv conn tr)
  = (fst (run (processRequest E buf) (mkHState srv conn [])),
     mkHState
       (h_srv (snd (run (processRequest E buf) (mkHState srv conn []))))
       (h_conn (snd (run (processRequest E buf) (mkHState srv conn []))))
       (tr ++ h_trace (snd (run (processRequest E buf) (mkHState srv conn []))))).
Proof.
  destruct (json_Unmarshal_Wrapper E buf) as [w|e] eqn:Hw.
  2:{ rewrite !(process_wrapper_err E _ _ Hw). reflexivity. }
  destruct (json_Unmarshal_Request E (Request w)) as [r|e] eqn:Hr.
  2:{ rewrite !(process_request_err E _ _ Hw Hr). reflexivity. }
  destruct (String.eqb_spec (Type_ r) ISSUE) as [Hi|Hi].
  - destruct (keys srv) as [|k0 ks] eqn:Hk.
    + rewrite (process_issue_no_key E _ (mkHState srv conn tr) Hw Hr Hi Hk).
      rewrite (process_issue_no_key E _ (mkHState srv conn []) Hw Hr Hi Hk).
      reflexivity.
    + rewrite (process_issue E _ (mkHState srv conn tr) Hw Hr Hi Hk).
      rewrite (process_issue E _ (mkHState srv conn []) Hw Hr Hi Hk).
      reflexivity.
  - destruct (String.eqb_spec (Type_ r) REDEEM) as [Hd|Hd].
    + rewrite (process_redeem E _ (mkHState srv conn tr) Hw Hr Hd).
      rewrite (process_redeem E _ (mkHState srv conn []) Hw Hr Hd).
      reflexivity.
    + rewrite (process_unknown E _ (mkHState srv conn tr) Hw Hr Hi Hd).
      rewrite (process_unknown E _ (mkHState srv conn []) Hw Hr Hi Hd).
      reflexivity.
Qed.

Lemma handle_trace_frame (E : Env) (srv : Server (Point E)) conn tr :
  handle E (mkHState srv conn tr)
  = (fst (handle E (mkHState srv conn [])),
     mkHState
       (h_srv (snd (handle E (mkHState srv conn []))))
       (h_conn (snd (handle E (mkHState srv conn []))))
       (tr ++ h_trace (snd (handle E (mkHState srv conn []))))).
Proof.
  destruct (read_proceeds conn) eqn:Hp.
  - rewrite (handle_proceeds E (mkHState srv conn tr) Hp).
    rewrite (handle_proceeds E (mkHState srv conn []) Hp).
    unfold after_read. cbn [h_srv h_conn h_trace].
    rewrite (processRequest_trace_frame E _ srv _ (tr ++ [Inc CounterConnections])).
    rewrite (processRequest_trace_frame E _ srv _ ([] ++ [Inc CounterConnections])).
    cbn [fst snd h_srv h_conn h_trace app]. rewrite <- app_assoc. reflexivity.
  - destruct (handle_read_fails E (mkHState srv conn tr) Hp) as (e & He & Hh).
    destruct (handle_read_fails E (mkHState srv conn []) Hp) as (e' & He' & Hh').
    cbn [h_conn] in He, He'. rewrite He in He'. inversion He'; subst e'.
    rewrite Hh, Hh'.
    unfold add_events, after_read. cbn [fst snd h_srv h_conn h_trace app].
    rewrite <- app_assoc. reflexivity.
Qed.

(** The counters a run of [handle] increments. *)
Lemma handle_counters (E : Env) (srv : Server (Point E)) (conn : Conn) :
  let out := handle E (mkHState srv conn []) in
  let cs := incs (h_trace (snd out)) in
  count_occ Counter_eq_dec cs CounterConnections = 1%nat /\
  List.length (filter is_error_counter cs)
  = match fst out with
    | Returned (Some _) => 1%nat
    | Returned None => 0%nat
    | Panicked => 0%nat
    end.
Proof.
  cbn zeta.
  destruct (read_proceeds conn) eqn:Hp.
  - rewrite (handle_proceeds E (mkHState srv conn []) Hp).
    destruct (process_paths E (request_bytes (h_conn (mkHState srv conn [])))
                (after_read (mkHState srv conn [])));
      cbn [snd fst add_events after_read h_trace h_srv h_conn app];
      try (split; reflexivity).
    + subst c x. cbn [h_srv h_conn]. destruct (ir_err _); split; reflexivity.
    + subst c x. cbn [h_srv h_conn]. destruct (rr_err _); split; reflexivity.
  - destruct (handle_read_fails E (mkHState srv conn []) Hp) as (e & _ & He).
    rewrite He. split; reflexivity.
Qed.

(** X1: a call of [handle] counts its connection exactly once, whatever
    becomes of it, and counts a failure exactly when it returns an
    error, on exactly one of the failure counters. *)
Theorem handle_counts_once (E : Env) (srv : Server (Point E)) (conn : Conn) :
  let out := handle E (mkHState srv conn []) in
  let cs := incs (h_trace (snd out)) in
  count_occ Counter_eq_dec cs CounterConnections = 1%nat /\
  List.length (filter is_error_counter cs)
  = match fst out with
    | Returned (Some _) => 1%nat
    | Returned None => 0%nat
    | Panicked => 0%nat
    end.
Proof. exact (handle_counters E srv conn). Qed.

(** X2: a call of [handle] makes at most one call into package btd, and
    makes one only if the read went through and both the envelope and
    the inner request decoded, with a type that is Issue or Redeem. *)
Theorem handle_calls_at_most_once (E : Env) (srv : Server (Point E))
    (conn : Conn) :
  (List.length (btd_calls (h_trace (snd (handle E (mkHState srv conn [])))))
   <= 1)%nat /\
  (btd_calls (h_trace (snd (handle E (mkHState srv conn [])))) <> [] ->
   read_proceeds conn = true /\
   exists w r,
     json_Unmarshal_Wrapper E (request_bytes conn) = Ok w /\
     json_Unmarshal_Request E (Request w) = Ok r /\
     (Type_ r = ISSUE \/ Type_ r = REDEEM)).
Proof.
  destruct (read_proceeds conn) eqn:Hp.
  - rewrite (handle_proceeds E (mkHState srv conn []) Hp).
    destruct (process_paths E (request_bytes (h_conn (mkHState srv conn [])))
                (after_read (mkHState srv conn [])));
      cbn [snd fst add_events after_read h_trace h_srv h_conn app btd_calls
             filter is_call List.length];
      try (split; [lia | intros Hne; contradiction]).
    + subst c x. cbn [h_srv h_conn]. split.
      * destruct (ir_err _); cbn; lia.
      * intros _. split; [reflexivity|]. exists w, r. auto.
    + subst c x. cbn [h_srv h_conn]. split.
      * destruct (rr_err _); cbn; lia.
      * intros _. split; [reflexivity|]. exists w, r. auto.
  - destruct (handle_read_fails E (mkHState srv conn []) Hp) as (e & _ & He).
    rewrite He. cbn. split; [lia | intros Hne; contradiction].
Qed.

(** X3: when [handle] makes no call into package btd (the read failed,
    a decoding failed, the type is unknown, or there is no key to issue
    with) it writes nothing: the connection is as the read left it and
    the server is as it was. *)
Theorem handle_without_call_writes_nothing (E : Env) (srv : Server (Point E))
    (conn : Conn) :
  btd_calls (h_trace (snd (handle E (mkHState srv conn [])))) = [] ->
  h_conn (snd (handle E (mkHState srv conn []))) = conn_after_read conn /\
  written (h_conn (snd (handle E (mkHState srv conn [])))) = written conn /\
  h_srv (snd (handle E (mkHState srv conn []))) = srv.
Proof.
  assert (Hw : written (conn_after_read conn) = written conn).
  { unfold conn_after_read, io_Copy_LimitReader.
    destruct (_ <=? _); reflexivity. }
  destruct (read_proceeds conn) eqn:Hp.
  - rewrite (handle_proceeds E (mkHState srv conn []) Hp).
    destruct (process_paths E (request_bytes (h_conn (mkHState srv conn [])))
                (after_read (mkHState srv conn [])));
      cbn [snd fst add_events after_read h_trace h_srv h_conn app btd_calls
             filter is_call];
      try (intros _; repeat split; assumption);
      try discriminate.
  - destruct (handle_read_fails E (mkHState srv conn []) Hp) as (e & _ & He).
    rewrite He. intros _. cbn. repeat split; assumption.
Qed.

(** X4: on an issuance [handle] returns what [HandleIssue] returns and
    leaves the connection as [HandleIssue] left it: unlike a failed
    redemption, a failed issuance gets no error text written by
    [handle].  The handler is given the connection as the read left
    it. *)
Theorem issue_result_is_handlers (E : Env) (srv : Server (Point E))
    (conn : Conn) (w : BlindTokenRequestWrapper) (r : BlindTokenRequest)
    (k0 : bytes) (ks : list bytes) :
  read_proceeds conn = true ->
  json_Unmarshal_Wrapper E (request_bytes conn) = Ok w ->
  json_Unmarshal_Request E (Request w) = Ok r ->
  Type_ r = ISSUE ->
  keys srv = k0 :: ks ->
  let x := HandleIssue E (conn_after_read conn) r k0 (G srv) (H srv)
             (MaxTokens srv) in
  fst (handle E (mkHState srv conn [])) = Returned (ir_err x) /\
  h_conn (snd (handle E (mkHState srv conn []))) = ir_conn x.
Proof.
  intros Hp Hw Hr Ht Hk x. subst x.
  rewrite (handle_proceeds E (mkHState srv conn []) Hp). cbn [h_conn].
  rewrite (process_issue E _ (after_read (mkHState srv conn [])) Hw Hr Ht Hk).
  split; reflexivity.
Qed.

(** X5: a request that decodes with a type that is neither Issue nor
    Redeem, letter for letter, is answered with
    [ErrUnrecognizedRequest]: the type is logged, the unknown-type
    counter is incremented, no handler is called and nothing is
    written. *)
Theorem unknown_type_is_refused (E : Env) (srv : Server (Point E))
    (conn : Conn) (w : BlindTokenRequestWrapper) (r : BlindTokenRequest) :
  read_proceeds conn = true ->
  json_Unmarshal_Wrapper E (request_bytes conn) = Ok w ->
  json_Unmarshal_Request E (Request w) = Ok r ->
  Type_ r <> "Issue" ->
  Type_ r <> "Redeem" ->
  handle E (mkHState srv conn [])
  = (Returned (Some ErrUnrecognizedRequest),
     mkHState srv (conn_after_read conn)
       [Inc CounterConnections;
        Printf ("unrecognized request type " ++ dquote ++ Type_ r ++ dquote);
        Inc CounterUnknownRequestType]).
Proof.
  intros Hp Hw Hr Hi Hd.
  rewrite (handle_proceeds E (mkHState srv conn []) Hp). cbn [h_conn].
  rewrite (process_unknown E _ (after_read (mkHState srv conn []))
             Hw Hr Hi Hd).
  reflexivity.
Qed.

(** X6: a read error that is not an i/o time-out of a [*net.OpError] is
    returned as it is, however much of the request has arrived: the
    buffer is not decoded, no handler is called, and the connection
    error is counted. *)
Theorem read_error_is_returned (E : Env) (srv : Server (Point E))
    (conn : Conn) (e : error) :
  read_error conn = Some e ->
  (forall op inner, e = OpError op inner -> Error inner <> "i/o timeout") ->
  handle E (mkHState srv conn [])
  = (Returned (Some e),
     mkHState srv (conn_after_read conn)
       [Inc CounterConnections; Inc CounterConnErrors]).
Proof.
  intros He Hnt.
  destruct (handle_read_fails E (mkHState srv conn [])) as (e' & He' & Hh).
  - unfold read_proceeds. cbn [h_conn]. rewrite He.
    destruct e as [msg | op inner]; [reflexivity|].
    cbn. destruct (String.eqb_spec (Error inner) "i/o timeout") as [Ht|Ht];
      [|reflexivity].
    exfalso. exact (Hnt op inner eq_refl Ht).
  - cbn [h_conn] in He'. rewrite He in He'. inversion He'; subst e'.
    rewrite Hh. reflexivity.
Qed.

(** X7: with no key configured an issuance request makes [handle]
    panic at [c.keys[0]], after the issuance has been counted and before
    [HandleIssue] is called; a redemption request does not need a key
    to be handled, the verifier is called with the empty sequence. *)
Theorem no_key_issue_panics (E : Env) (srv : Server (Point E))
    (conn : Conn) (w : BlindTokenRequestWrapper) (r : BlindTokenRequest) :
  read_proceeds conn = true ->
  json_Unmarshal_Wrapper E (request_bytes conn) = Ok w ->
  json_Unmarshal_Request E (Request w) = Ok r ->
  keys srv = [] ->
  (Type_ r = ISSUE ->
   handle E (mkHState srv conn [])
   = (Panicked,
      mkHState srv (conn_after_read conn)
        [Inc CounterConnections; Inc CounterIssueTotal])) /\
  (Type_ r = REDEEM ->
   exists err,
     fst (handle E (mkHState srv conn [])) = Returned err /\
     btd_calls (h_trace (snd (handle E (mkHState srv conn []))))
     = [CallRedeem r (Host w) (Path w) []]).
Proof.
  intros Hp Hw Hr Hk.
  rewrite (handle_proceeds E (mkHState srv conn []) Hp). cbn [h_conn].
  split; intros Ht.
  - rewrite (process_issue_no_key E _ (after_read (mkHState srv conn []))
               Hw Hr Ht Hk).
    reflexivity.
  - rewrite (process_redeem E _ (after_read (mkHState srv conn [])) Hw Hr Ht).
    cbn [after_read h_srv h_conn h_trace fst snd]. rewrite Hk.
    eexists; split; [reflexivity|].
    destruct (rr_err _); reflexivity.
Qed.

(* ================================================================== *)
(** * Further properties of the accept loop *)
(* ================================================================== *)

Lemma same_config_refl {P : Type} (c : Server P) : same_config c c.
Proof. unfold same_config. repeat split. Qed.

Lemma same_config_trans {P : Type} (a b c : Server P) :
  same_config a b -> same_config b c -> same_config a c.
Proof.
  unfold same_config.
  intros (A1 & A2 & A3 & A4 & A5 & A6 & A7) (B1 & B2 & B3 & B4 & B5 & B6 & B7).
  repeat split; congruence.
Qed.

Lemma handle_same_config (E : Env) (s : HState (Point E)) :
  same_config (h_srv s) (h_srv (snd (handle E s))).
Proof. exact (handle_preserves_configuration E s). Qed.

Lemma serve_same_config (E : Env) (p : Process (Point E)) a :
  exists p', process_of (serve E p a) = Some p' /\
             same_config (p_srv p) (p_srv p').
Proof.
  destruct a as [conn | e t]; cbn [serve].
  - pose proof (handle_same_config E
                  (mkHState (p_srv p) (SetKeepAlive (1 * Minute) conn) (p_trace p)))
      as Hc.
    destruct (handle E _) as [[err|] s]; cbn in *; eexists; split;
      try reflexivity; exact Hc.
  - eexists; split; [reflexivity | apply same_config_refl].
Qed.

Lemma acceptLoop_same_config (E : Env) accepts : forall p : Process (Point E),
  exists p', process_of (acceptLoop E p accepts) = Some p' /\
             same_config (p_srv p) (p_srv p').
Proof.
  induction accepts as [|a rest IH]; intros p; cbn [acceptLoop].
  - exists p. split; [reflexivity | apply same_config_refl].
  - destruct (serve_same_config E p a) as (p1 & H1 & C1).
    destruct (serve E p a) as [e | q | q]; cbn in H1; inversion H1; subst.
    + destruct (IH p1) as (p' & H' & C'). exists p'. split; [exact H'|].
      eapply same_config_trans; eassumption.
    + exists p1. split; [reflexivity | exact C1].
Qed.

(** [ListenAndServe] past its set-up is the loop started on the server
    it was called on. *)
Lemma ListenAndServe_cases (E : Env) (c : Server (Point E)) :
  (exists e, forall accepts', ListenAndServe E c accepts' = ReturnedErr e) \/
  (exists tr0,
     keys c <> [] /\
     forall accepts',
       ListenAndServe E c accepts'
       = acceptLoop E (mkProcess c tr0 (1 * Millisecond) []) accepts').
Proof.
  unfold ListenAndServe.
  destruct (Z.eqb_spec (len (keys c)) 0) as [Hz|Hz]; [left; eauto|].
  destruct (net_ResolveTCPAddr E _) as [tcpAddr|e]; [|left; eauto].
  destruct (net_ListenTCP E tcpAddr) as [e|]; [left; eauto|].
  right. eexists. split; [|reflexivity].
  intros Hnil. rewrite Hnil in Hz. apply Hz. reflexivity.
Qed.

Lemma ListenAndServe_same_config (E : Env) (c : Server (Point E))
    (accepts : list Accept) :
  match ListenAndServe E c accepts with
  | Running p => same_config c (p_srv p)
  | Crashed p => same_config c (p_srv p)
  | ReturnedErr _ => True
  end.
Proof.
  destruct (ListenAndServe_cases E c) as [(e & He) | (tr0 & _ & Hl)].
  - rewrite He. exact I.
  - rewrite Hl.
    destruct (acceptLoop_same_config E accepts (mkProcess c tr0 (1 * Millisecond) []))
      as (p' & Hp & Hc).
    destruct (acceptLoop E _ accepts); cbn in Hp; inversion Hp; subst;
      try exact Hc.
Qed.

(** X9: while it serves, the process keeps the configuration it started
    with, whatever the handlers of package btd do: bind address, ports,
    MaxTokens, the two file paths and the number of keys are those of
    the server [ListenAndServe] was called on. *)
Theorem serving_keeps_configuration (E : Env) (c : Server (Point E))
    (accepts : list Accept) :
  match ListenAndServe E c accepts with
  | Running p => same_config c (p_srv p)
  | Crashed p => same_config c (p_srv p)
  | ReturnedErr _ => True
  end.
Proof. exact (ListenAndServe_same_config E c accepts). Qed.

Lemma srv_unchanged_by_handle (E : Env) (s : HState (Point E)) :
  handlers_read_only E -> h_srv (snd (handle E s)) = h_srv s.
Proof.
  intros Hro. destruct s as [srv conn tr]. cbn [h_srv].
  destruct (read_proceeds conn) eqn:Hp.
  - rewrite (handle_proceeds E (mkHState srv conn tr) Hp).
    destruct (process_paths E (request_bytes (h_conn (mkHState srv conn tr)))
                (after_read (mkHState srv conn tr))); cbn [snd h_srv after_read];
      try reflexivity.
    + subst c x. cbn [h_srv after_read] in *.
      eapply srv_after_issue_read_only; eassumption.
    + subst c x. cbn [h_srv after_read].
      apply srv_after_redeem_read_only; assumption.
  - destruct (handle_read_fails E (mkHState srv conn tr) Hp) as (e & _ & He).
    rewrite He. reflexivity.
Qed.

Lemma serve_srv_read_only (E : Env) (p : Process (Point E)) a :
  handlers_read_only E ->
  exists p', process_of (serve E p a) = Some p' /\ p_srv p' = p_srv p.
Proof.
  intros Hro. destruct a as [conn | e t]; cbn [serve].
  - pose proof (srv_unchanged_by_handle
                  (mkHState (p_srv p) (SetKeepAlive (1 * Minute) conn) (p_trace p))
                  Hro) as Hs.
    destruct (handle E _) as [[err|] s]; cbn in *; eexists; split;
      try reflexivity; exact Hs.
  - eexists; split; reflexivity.
Qed.

Lemma acceptLoop_srv_read_only (E : Env) accepts :
  handlers_read_only E ->
  forall p : Process (Point E),
  exists p', process_of (acceptLoop E p accepts) = Some p' /\ p_srv p' = p_srv p.
Proof.
  intros Hro. induction accepts as [|a rest IH]; intros p; cbn [acceptLoop].
  - exists p. split; reflexivity.
  - destruct (serve_srv_read_only p a Hro) as (p1 & H1 & C1).
    destruct (serve E p a) as [e | q | q]; cbn in H1; inversion H1; subst.
    + destruct (IH p1) as (p' & H' & C'). exists p'. split; [exact H'|].
      congruence.
    + exists p1. split; [reflexivity | exact C1].
Qed.

(** X10: with handlers that only read the key material they are
    handed, the server is the same after any number of connections: the
    keys, G and H a request is handled with are those [ListenAndServe]
    was called with. *)
Theorem serving_keeps_key_material (E : Env) (c : Server (Point E))
    (accepts : list Accept) :
  handlers_read_only E ->
  match ListenAndServe E c accepts with
  | Running p => p_srv p = c
  | Crashed p => p_srv p = c
  | ReturnedErr _ => True
  end.
Proof.
  intros Hro.
  destruct (ListenAndServe_cases E c) as [(e & He) | (tr0 & _ & Hl)].
  - rewrite He. exact I.
  - rewrite Hl.
    destruct (acceptLoop_srv_read_only accepts Hro
                (mkProcess c tr0 (1 * Millisecond) []))
      as (p' & Hp & Hc).
    destruct (acceptLoop E _ accepts); cbn in Hp; inversion Hp; subst;
      try exact Hc.
Qed.

(** *** Counting and waiting *)

Lemma handle_incs_connections (E : Env) (srv : Server (Point E)) conn tr :
  count_occ Counter_eq_dec
    (incs (h_trace (snd (handle E (mkHState srv conn tr))))) CounterConnections
  = S (count_occ Counter_eq_dec (incs tr) CounterConnections).
Proof.
  rewrite handle_trace_frame. cbn [snd h_trace].
  rewrite incs_app, count_occ_app.
  rewrite (proj1 (handle_counters E srv conn)). lia.
Qed.

Lemma handle_sleeps (E : Env) (srv : Server (Point E)) conn tr :
  sleeps (h_trace (snd (handle E (mkHState srv conn tr)))) = sleeps tr.
Proof.
  rewrite handle_trace_frame. cbn [snd h_trace]. rewrite sleeps_app.
  enough (Hn : sleeps (h_trace (snd (handle E (mkHState srv conn [])))) = [])
    by (rewrite Hn; apply app_nil_r).
  destruct (read_proceeds conn) eqn:Hp.
  - rewrite (handle_proceeds E (mkHState srv conn []) Hp).
    destruct (process_paths E (request_bytes (h_conn (mkHState srv conn [])))
                (after_read (mkHState srv conn [])));
      cbn [snd fst add_events after_read h_trace h_srv h_conn app sleeps];
      try reflexivity.
    + subst c x. cbn [h_srv h_conn]. destruct (ir_err _); reflexivity.
    + subst c x. cbn [h_srv h_conn]. destruct (rr_err _); reflexivity.
  - destruct (handle_read_fails E (mkHState srv conn []) Hp) as (e & _ & He).
    rewrite He. reflexivity.
Qed.

Lemma serve_backoff (E : Env) (p : Process (Point E)) a :
  backoff_in_range p ->
  exists p', process_of (serve E p a) = Some p' /\ backoff_in_range p'.
Proof.
  intros (Hsl & Hb). destruct a as [conn | e t]; cbn [serve].
  - pose proof (handle_sleeps E (p_srv p) (SetKeepAlive (1 * Minute) conn)
                  (p_trace p)) as Hs.
    destruct (handle E _) as [[err|] s]; cbn [snd] in Hs;
      eexists; (split; [reflexivity|]).
    + split; cbn [p_trace p_backoff].
      * rewrite sleeps_app, Hs.
        destruct err; cbn [sleeps]; rewrite app_nil_r; exact Hsl.
      * unfold maxBackoffDelay, Second, Millisecond. lia.
    + split; cbn [p_trace p_backoff].
      * rewrite Hs. exact Hsl.
      * unfold maxBackoffDelay, Second, Millisecond. lia.
  - eexists. split; [reflexivity|].
    unfold backoff_in_range. cbn [p_trace p_backoff].
    rewrite !sleeps_app. cbn [sleeps app].
    destruct (match e with OpError _ _ => t | errorString _ => false end).
    + cbn [sleeps]. rewrite app_nil_r. split.
      * apply Forall_app. split; [exact Hsl|]. constructor; [|constructor].
        unfold maxBackoffDelay, Second, Millisecond in *.
        destruct (Z.ltb_spec (1 * (1000 * 1000000)) (p_backoff p)); lia.
      * unfold maxBackoffDelay, Second, Millisecond in *.
        destruct (Z.ltb_spec (1 * (1000 * 1000000)) (p_backoff p)); lia.
    + cbn [sleeps]. rewrite app_nil_r. split; assumption.
Qed.

Lemma acceptLoop_backoff (E : Env) accepts : forall p : Process (Point E),
  backoff_in_range p ->
  exists p', process_of (acceptLoop E p accepts) = Some p' /\
             backoff_in_range p'.
Proof.
  induction accepts as [|a rest IH]; intros p Hp; cbn [acceptLoop].
  - exists p. split; [reflexivity | exact Hp].
  - destruct (serve_backoff E a Hp) as (p1 & H1 & R1).
    destruct (serve E p a) as [e | q | q]; cbn in H1; inversion H1; subst.
    + apply IH, R1.
    + exists p1. split; [reflexivity | exact R1].
Qed.

(** X13: the loop never sleeps less than a millisecond nor more than
    [maxBackoffDelay] (one second) on a failure of [AcceptTCP], and the
    delay it will use next stays between one millisecond and two
    seconds, whatever the sequence of connections and failures. *)
Theorem backoff_stays_in_range (E : Env) (c : Server (Point E))
    (accepts : list Accept) :
  match process_of (ListenAndServe E c accepts) with
  | Some p =>
      Forall (fun d => Millisecond <= d <= maxBackoffDelay)
             (sleeps (p_trace p)) /\
      Millisecond <= p_backoff p <= 2 * maxBackoffDelay
  | None => True
  end.
Proof.
  unfold ListenAndServe.
  destruct (len (keys c) =? 0); [exact I|].
  destruct (net_ResolveTCPAddr E _) as [tcpAddr|e]; [|exact I].
  destruct (net_ListenTCP E tcpAddr) as [e|]; [exact I|].
  match goal with
  | |- context [acceptLoop E ?p0 accepts] =>
      destruct (acceptLoop_backoff E accepts (p := p0)) as (p' & Hp & Hr)
  end.
  - split; cbn; [constructor|].
    unfold maxBackoffDelay, Second, Millisecond. lia.
  - rewrite Hp. exact Hr.
Qed.

Lemma sleep_at_backoff k :
  (if maxBackoffDelay <? backoff_after k then maxBackoffDelay else backoff_after k)
  = sleep_at k.
Proof.
  unfold backoff_after, sleep_at.
  assert (0 < 2 ^ Z.of_nat k) by (apply Z.pow_pos_nonneg; lia).
  unfold maxBackoffDelay, Second, Millisecond in *.
  destruct (Z.ltb_spec (1 * (1000 * 1000000))
              (Z.min (2 ^ Z.of_nat k * 1000000) (2 * (1 * (1000 * 1000000)))));
    lia.
Qed.

Lemma backoff_after_S k : 2 * sleep_at k = backoff_after (S k).
Proof.
  unfold backoff_after, sleep_at.
  rewrite Nat2Z.inj_succ, Z.pow_succ_r by lia.
  unfold maxBackoffDelay, Second, Millisecond. lia.
Qed.

Lemma acceptLoop_temporary (E : Env) accepts :
  forall (p : Process (Point E)) k,
  forallb temporary_failure accepts = true ->
  p_backoff p = backoff_after k ->
  exists p',
    acceptLoop E p accepts = Running p' /\
    sleeps (p_trace p')
    = (sleeps (p_trace p) ++ map sleep_at (seq k (List.length accepts)))%list /\
    p_backoff p' = backoff_after (k + List.length accepts) /\
    p_srv p' = p_srv p /\
    p_done p' = p_done p.
Proof.
  induction accepts as [|a rest IH]; intros p k Hall Hb; cbn [acceptLoop].
  - exists p. cbn. rewrite app_nil_r, Nat.add_0_r. auto.
  - cbn [forallb] in Hall. apply andb_true_iff in Hall. destruct Hall as (Ha & Hrest).
    destruct a as [conn | e t]; [discriminate|].
    destruct e as [msg | op inner]; [discriminate|].
    destruct t; [|discriminate].
    cbn [serve]. rewrite Hb, sleep_at_backoff, backoff_after_S.
    match goal with
    | |- context [acceptLoop E ?q rest] =>
        destruct (IH q (S k) Hrest eq_refl) as (p' & Hrun & Hsl & Hbk & Hsrv & Hdone)
    end.
    exists p'. split; [exact Hrun|].
    cbn [p_trace p_srv p_done] in *.
    rewrite Hsl, !sleeps_app. cbn [sleeps List.length seq map app].
    rewrite <- app_assoc. cbn [app].
    rewrite Hbk, <- Nat.add_succ_comm. auto.
Qed.

(** X14: failures of [AcceptTCP] that are temporary, one after the
    other from the start, are waited out with delays that double from
    one millisecond and are capped at [maxBackoffDelay]: the k-th wait
    lasts min(2^k ms, 1 s), and the loop is still accepting after any
    number of them. *)
Theorem temporary_failures_back_off (E : Env) (c : Server (Point E))
    (accepts : list Accept) :
  forallb temporary_failure accepts = true ->
  match ListenAndServe E c accepts with
  | Running p =>
      sleeps (p_trace p) = map sleep_at (seq 0 (List.length accepts)) /\
      p_backoff p = backoff_after (List.length accepts)
  | Crashed _ => False
  | ReturnedErr _ => True
  end.
Proof.
  intros Hall. unfold ListenAndServe.
  destruct (len (keys c) =? 0); [exact I|].
  destruct (net_ResolveTCPAddr E _) as [tcpAddr|e]; [|exact I].
  destruct (net_ListenTCP E tcpAddr) as [e|]; [exact I|].
  match goal with
  | |- context [acceptLoop E ?p0 accepts] =>
      destruct (acceptLoop_temporary E accepts p0 0 Hall)
        as (p' & Hrun & Hsl & Hbk & _)
  end.
  - reflexivity.
  - rewrite Hrun. cbn [p_trace sleeps app] in Hsl. split; assumption.
Qed.

(** X15: an accepted connection resets the delay: the first temporary
    failure of [AcceptTCP] after a connection is waited out for one
    millisecond, however long the waits before that connection were. *)
Theorem accepted_connection_resets_backoff (E : Env) (c : Server (Point E))
    (accepts : list Accept) (conn : Conn) (op : string) (inner : error)
    (p1 : Process (Point E)) :
  ListenAndServe E c accepts = Running p1 ->
  exists p2 p,
    ListenAndServe E c (accepts ++ [Accepted conn]) = Running p2 /\
    sleeps (p_trace p2) = sleeps (p_trace p1) /\
    p_backoff p2 = 1 * Millisecond /\
    ListenAndServe E c
      (accepts ++ [Accepted conn; AcceptFails (OpError op inner) true])
    = Running p /\
    sleeps (p_trace p) = (sleeps (p_trace p1) ++ [1 * Millisecond])%list.
Proof.
  intros H1.
  destruct (ListenAndServe_cases E c) as [(e & He) | (tr0 & Hk0 & Hl)].
  { rewrite He in H1. discriminate. }
  rewrite Hl in H1.
  destruct (acceptLoop_keeps_running E accepts
              (mkProcess c tr0 (1 * Millisecond) []) Hk0) as (q & Hq & Hk1).
  rewrite Hq in H1. inversion H1; subst q; clear H1.
  destruct (handle_returns E
              (mkHState (p_srv p1) (SetKeepAlive (1 * Minute) conn) (p_trace p1))
              Hk1) as (err & s & Hh).
  pose proof (serve_accepted E p1 conn Hh) as Hs.
  pose proof (handle_sleeps E (p_srv p1) (SetKeepAlive (1 * Minute) conn)
                (p_trace p1)) as Hsl.
  rewrite Hh in Hsl. cbn [snd] in Hsl.
  eexists. eexists.
  rewrite !Hl, (acceptLoop_app E accepts _ [Accepted conn] Hq),
    (acceptLoop_app E accepts _
       [Accepted conn; AcceptFails (OpError op inner) true] Hq).
  cbn [acceptLoop]. rewrite Hs. cbn [serve p_trace p_backoff].
  split; [reflexivity|].
  split.
  { cbn [p_trace]. rewrite sleeps_app, Hsl.
    destruct err; cbn [sleeps]; apply app_nil_r. }
  split; [reflexivity|].
  split; [reflexivity|].
  cbn [p_trace]. rewrite !sleeps_app, Hsl.
  destruct err; cbn; rewrite ?app_nil_r; reflexivity.
Qed.

(** X16: a failure of [AcceptTCP] does not stop the loop: it is counted
    as a connection error and logged, the server and the connections
    done with are untouched, and the loop goes back to accepting; unless
    the failure is a temporary network error the loop does not sleep and
    keeps its delay. *)
Theorem accept_failure_is_recovered (E : Env) (c : Server (Point E))
    (accepts : list Accept) (e : error) (t : bool) (p1 : Process (Point E)) :
  ListenAndServe E c accepts = Running p1 ->
  exists p evs,
    ListenAndServe E c (accepts ++ [AcceptFails e t]) = Running p /\
    p_trace p
    = (p_trace p1 ++ evs ++ [Inc CounterConnErrors; Printf (Error e)])%list /\
    incs evs = [] /\
    p_srv p = p_srv p1 /\
    p_done p = p_done p1 /\
    (temporary_failure (AcceptFails e t) = false ->
     evs = [] /\ p_backoff p = p_backoff p1).
Proof.
  intros H1.
  destruct (ListenAndServe_cases E c) as [(e' & He) | (tr0 & Hk0 & Hl)].
  { rewrite He in H1. discriminate. }
  rewrite Hl in H1.
  rewrite Hl, (acceptLoop_app E accepts _ [AcceptFails e t] H1).
  cbn [acceptLoop serve].
  eexists. eexists. split; [reflexivity|]. cbn [p_trace p_srv p_done p_backoff].
  split; [reflexivity|].
  split; [destruct (match e with OpError _ _ => t | errorString _ => false end);
          reflexivity|].
  split; [reflexivity|]. split; [reflexivity|].
  intros Ht.
  assert (Hf : match e with OpError _ _ => t | errorString _ => false end = false).
  { destruct e as [msg | op inner]; [reflexivity|]. destruct t; [discriminate|reflexivity]. }
  rewrite Hf. split; reflexivity.
Qed.

(** X17: [ListenAndServe] returns an error only out of its set-up, the
    same whatever connections would follow; without a key it returns
    [ErrNoSecretKey] before it resolves an address or listens; and once
    it accepts connections no sequence of them makes it panic. *)
Theorem ListenAndServe_fails_only_at_setup (E : Env) (c : Server (Point E))
    (accepts : list Accept) :
  (forall e, ListenAndServe E c accepts = ReturnedErr e <->
             ListenAndServe E c [] = ReturnedErr e) /\
  (keys c = [] -> ListenAndServe E c accepts = ReturnedErr ErrNoSecretKey) /\
  (forall p, ListenAndServe E c accepts <> Crashed p).
Proof.
  split; [|split].
  - intros e.
    destruct (ListenAndServe_cases E c) as [(e' & He) | (tr0 & Hk0 & Hl)].
    + rewrite !He. tauto.
    + rewrite !Hl. cbn [acceptLoop]. split; [|discriminate].
      intros Hr. exfalso. exact (acceptLoop_not_returned E accepts _ Hr).
  - intros Hk. unfold ListenAndServe. rewrite Hk. reflexivity.
  - intros p.
    destruct (ListenAndServe_cases E c) as [(e' & He) | (tr0 & Hk0 & Hl)].
    + rewrite He. discriminate.
    + rewrite Hl.
      destruct (acceptLoop_keeps_running E accepts
                  (mkProcess c tr0 (1 * Millisecond) []) Hk0) as (q & Hq & _).
      rewrite Hq. discriminate.
Qed.

(* ================================================================== *)
(** * Further properties of the start-up *)
(* ================================================================== *)

(** X18: [loadKeys] checks the key path, then the commitment path, then
    parses the key file; it changes nothing but the keys, and these only
    when it succeeds, in which case they are the keys of the file. *)
Theorem loadKeys_only_sets_keys (E : Env) (c : Server (Point E)) :
  let c' := fst (loadKeys E c) in
  let err := snd (loadKeys E c) in
  set_keys E c' (keys c) = c /\
  (err <> None -> c' = c) /\
  (err = None -> ParseKeyFile E (KeyFilePath c) = Ok (keys c')) /\
  (KeyFilePath c = "" -> err = Some ErrEmptyKeyPath) /\
  (KeyFilePath c <> "" -> CommFilePath c = "" -> err = Some ErrEmptyCommPath) /\
  (KeyFilePath c <> "" -> CommFilePath c <> "" ->
   forall e, ParseKeyFile E (KeyFilePath c) = Err e -> err = Some e).
Proof.
  cbn zeta. unfold loadKeys.
  assert (Hsame : set_keys E c (keys c) = c) by (destruct c; reflexivity).
  destruct (String.eqb_spec (KeyFilePath c) "") as [Hk|Hk].
  { cbn [fst snd]. repeat split; try assumption; try discriminate;
      try contradiction. }
  destruct (String.eqb_spec (CommFilePath c) "") as [Hc|Hc].
  { cbn [fst snd]. repeat split; try assumption; try discriminate;
      try contradiction. }
  destruct (ParseKeyFile E (KeyFilePath c)) as [ks|e]; cbn [fst snd].
  - repeat split; try discriminate; try contradiction.
    destruct c; reflexivity.
  - repeat split; try assumption; try discriminate; try contradiction;
      try congruence.
Qed.

(** X19: the server that listens is the one the command line
    describes: bind address, ports, MaxTokens and the two file paths are
    the values of the options, and it has as many keys as the key file
    holds.  A process that serves was started without [-config]. *)
Theorem serving_server_is_from_flags (E : Env) (f : Flags)
    (accepts : list Accept) :
  serves (main E f accepts) = true ->
  exists p ks,
    (main E f accepts = Serving p \/ main E f accepts = ServingCrashed p) /\
    flag_config f = "" /\
    BindAddress (p_srv p) = flag_addr f /\
    ListenPort (p_srv p) = flag_p f /\
    MetricsPort (p_srv p) = flag_m f /\
    MaxTokens (p_srv p) = flag_maxtokens f /\
    KeyFilePath (p_srv p) = flag_key f /\
    CommFilePath (p_srv p) = flag_comm f /\
    ParseKeyFile E (flag_key f) = Ok ks /\
    List.length (keys (p_srv p)) = List.length ks.
Proof.
  intros Hs.
  destruct (main_serves_inv E f accepts Hs) as (srv & k0 & ks & Hc & Hl & Hk).
  destruct (loadKeys_ok E _ Hl) as (_ & _ & ks' & Hparse & Hsrv).
  rewrite (main_after_loadKeys E f accepts Hc Hl Hk) in *.
  destruct (ParseCommitmentFile E (CommFilePath srv)) as [[GBytes HBytes]|e];
    [|discriminate].
  destruct (RetrieveCommPoints E GBytes HBytes k0) as [[g h]|e]; [|discriminate].
  pose proof (ListenAndServe_same_config E (set_GH E srv (Some g) (Some h)) accepts)
    as Hsame.
  destruct (ListenAndServe E (set_GH E srv (Some g) (Some h)) accepts)
    as [e | p | p]; [discriminate| |];
    exists p, ks'; (split; [auto|]);
    destruct Hsame as (S1 & S2 & S3 & S4 & S5 & S6 & S7);
    rewrite S1, S2, S3, S4, S5, S6, S7; subst srv; cbn; auto 10.
Qed.

(** X20: a key file without keys makes [main] panic at [srv.keys[0]]
    once the commitment file has parsed; the check for an empty key list
    in [ListenAndServe] is not reached from [main]. *)
Theorem empty_key_file_panics (E : Env) (f : Flags) (accepts : list Accept) :
  flag_config f = "" ->
  flag_key f <> "" ->
  flag_comm f <> "" ->
  ParseKeyFile E (flag_key f) = Ok [] ->
  match ParseCommitmentFile E (flag_comm f) with
  | Ok _ => main E f accepts = StartupPanic
  | Err e => main E f accepts = Fatal e
  end.
Proof.
  intros Hc Hk Hm Hp. unfold main, loadKeys. cbn zeta.
  rewrite Hc. cbn [String.eqb negb andb]. cbn [server_of_flags KeyFilePath CommFilePath].
  destruct (String.eqb_spec (flag_key f) ""); [contradiction|].
  destruct (String.eqb_spec (flag_comm f) ""); [contradiction|].
  cbn [orb]. rewrite Hp. cbn [set_keys server_of_flags CommFilePath keys].
  destruct (ParseCommitmentFile E (flag_comm f)) as [[GBytes HBytes]|e];
    reflexivity.
Qed.

(** X21: [main] prints the usage and returns exactly when no
    configuration file is named and the key path or the commitment path
    is missing; it then reads no file.  So the empty-path errors of
    [loadKeys] are not what a missing option ends in. *)
Theorem usage_exactly_without_paths (E : Env) (f : Flags)
    (accepts : list Accept) :
  main E f accepts = Usage <->
  flag_config f = "" /\ (flag_key f = "" \/ flag_comm f = "").
Proof.
  split.
  - unfold main. cbn zeta.
    destruct (String.eqb_spec (flag_config f) "") as [Hc|Hc]; cbn [negb andb].
    + cbn [server_of_flags KeyFilePath CommFilePath].
      destruct (String.eqb_spec (flag_key f) "") as [Hk|Hk]; cbn [orb];
        [auto|].
      destruct (String.eqb_spec (flag_comm f) "") as [Hm|Hm]; [auto|].
      destruct (loadKeys E _) as [srv [e|]]; [discriminate|].
      destruct (ParseCommitmentFile E (CommFilePath srv)) as [[GBytes HBytes]|e];
        [|discriminate].
      destruct (keys srv) as [|k0 ks]; [discriminate|].
      destruct (RetrieveCommPoints E GBytes HBytes k0) as [[g h]|e];
        [|discriminate].
      destruct (ListenAndServe E _ accepts); discriminate.
    + destruct (loadConfigFile_fails E (flag_config f)) as (e & He).
      rewrite He. discriminate.
  - intros (Hc & Hpaths). unfold main. cbn zeta. rewrite Hc.
    cbn [String.eqb negb andb server_of_flags KeyFilePath CommFilePath].
    destruct Hpaths as [Hk | Hm].
    + rewrite Hk. reflexivity.
    + rewrite Hm. cbn [String.eqb]. rewrite orb_true_r. reflexivity.
Qed.

(* ================================================================== *)
(** * More on the outcome of a request *)
(* ================================================================== *)

(** X22: when the redemption handler returns nil, so does [handle], and
    it adds nothing to the connection: the response is what
    [HandleRedeem] wrote.  The handler is given the connection as the
    read left it. *)
Theorem redeem_success_adds_nothing (E : Env) (srv : Server (Point E))
    (conn : Conn) (w : BlindTokenRequestWrapper) (r : BlindTokenRequest) :
  read_proceeds conn = true ->
  json_Unmarshal_Wrapper E (request_bytes conn) = Ok w ->
  json_Unmarshal_Request E (Request w) = Ok r ->
  Type_ r = REDEEM ->
  rr_err (HandleRedeem E (conn_after_read conn) r (Host w) (Path w) (keys srv))
  = None ->
  fst (handle E (mkHState srv conn [])) = Returned None /\
  h_conn (snd (handle E (mkHState srv conn [])))
  = rr_conn (HandleRedeem E (conn_after_read conn) r (Host w) (Path w) (keys srv)) /\
  incs (h_trace (snd (handle E (mkHState srv conn []))))
  = [CounterConnections; CounterRedeemTotal].
Proof.
  intros Hp Hw Hr Ht He.
  rewrite (handle_proceeds E (mkHState srv conn []) Hp). cbn [h_conn].
  rewrite (process_redeem E _ (after_read (mkHState srv conn [])) Hw Hr Ht).
  cbn [after_read h_srv h_conn h_trace fst snd]. rewrite He.
  repeat split.
Qed.

(** X23: the totals count by type: a request that decodes is counted
    as an issuance exactly when its type is Issue (also when the
    issuance then panics for want of a key) and as a redemption exactly
    when its type is Redeem; a request that does not decode, or whose
    read fails, is counted as neither. *)
Theorem totals_count_by_type (E : Env) (srv : Server (Point E)) (conn : Conn) :
  let cs := incs (h_trace (snd (handle E (mkHState srv conn [])))) in
  let decoded :=
    if read_proceeds conn then
      match json_Unmarshal_Wrapper E (request_bytes conn) with
      | Ok w =>
          match json_Unmarshal_Request E (Request w) with
          | Ok r => Some (Type_ r)
          | Err _ => None
          end
      | Err _ => None
      end
    else None in
  count_occ Counter_eq_dec cs CounterIssueTotal
  = match decoded with
    | Some t => if String.eqb t ISSUE then 1%nat else 0%nat
    | None => 0%nat
    end /\
  count_occ Counter_eq_dec cs CounterRedeemTotal
  = match decoded with
    | Some t => if String.eqb t REDEEM then 1%nat else 0%nat
    | None => 0%nat
    end.
Proof.
  cbn zeta.
  destruct (read_proceeds conn) eqn:Hp.
  - rewrite (handle_proceeds E (mkHState srv conn []) Hp).
    destruct (process_paths E (request_bytes (h_conn (mkHState srv conn [])))
                (after_read (mkHState srv conn [])));
      cbn [h_conn] in *;
      repeat match goal with
             | H : json_Unmarshal_Wrapper _ _ = _ |- _ => rewrite H; clear H
             | H : json_Unmarshal_Request _ _ = _ |- _ => rewrite H; clear H
             | H : Type_ _ = _ |- _ => rewrite H; clear H
             end;
      cbn [snd fst add_events after_read h_trace h_srv h_conn app];
      try (split; reflexivity).
    + subst c x. cbn [h_srv h_conn]. destruct (ir_err _); split; reflexivity.
    + subst c x. cbn [h_srv h_conn]. destruct (rr_err _); split; reflexivity.
    + destruct (String.eqb_spec (Type_ r) ISSUE); [contradiction|].
      destruct (String.eqb_spec (Type_ r) REDEEM); [contradiction|].
      split; reflexivity.
  - destruct (handle_read_fails E (mkHState srv conn []) Hp) as (e & _ & He).
    rewrite He. split; reflexivity.
Qed.

(* ================================================================== *)
(** * Further runs on concrete inputs *)
(* ================================================================== *)

Lemma handle_calls_at_most_once_witness :
  read_proceeds (Sample.conn_of Sample.issue_msg AtEOF) = true /\
  exists w r,
    json_Unmarshal_Wrapper Sample.env
      (request_bytes (Sample.conn_of Sample.issue_msg AtEOF)) = Ok w /\
    json_Unmarshal_Request Sample.env (Request w) = Ok r /\
    (Type_ r = ISSUE \/ Type_ r = REDEEM).
Proof.
  apply (proj2 (@handle_calls_at_most_once Sample.env Sample.srv
                  (Sample.conn_of Sample.issue_msg AtEOF))).
  vm_compute. discriminate.
Defined.

Lemma handle_without_call_writes_nothing_witness :
  h_conn (snd (handle Sample.env
                 (mkHState Sample.srv (Sample.conn_of Sample.garbage_msg AtEOF) [])))
  = conn_after_read (Sample.conn_of Sample.garbage_msg AtEOF) /\
  written (h_conn (snd (handle Sample.env
                 (mkHState Sample.srv (Sample.conn_of Sample.garbage_msg AtEOF) []))))
  = [] /\
  h_srv (snd (handle Sample.env
                (mkHState Sample.srv (Sample.conn_of Sample.garbage_msg AtEOF) [])))
  = Sample.srv.
Proof.
  apply (@handle_without_call_writes_nothing Sample.env Sample.srv
           (Sample.conn_of Sample.garbage_msg AtEOF)).
  vm_compute. reflexivity.
Defined.

Lemma issue_result_is_handlers_witness :
  let x := HandleIssue Sample.env
             (conn_after_read (Sample.conn_of Sample.issue_msg AtEOF))
             Sample.issue_req Sample.key7 (G Sample.srv) (H Sample.srv)
             (MaxTokens Sample.srv) in
  fst (handle Sample.env
         (mkHState Sample.srv (Sample.conn_of Sample.issue_msg AtEOF) []))
  = Returned (ir_err x) /\
  h_conn (snd (handle Sample.env
         (mkHState Sample.srv (Sample.conn_of Sample.issue_msg AtEOF) [])))
  = ir_conn x.
Proof.
  apply (@issue_result_is_handlers Sample.env Sample.srv
           (Sample.conn_of Sample.issue_msg AtEOF)
           (Sample.envelope Sample.issue_inner) Sample.issue_req
           Sample.key7 [Sample.key3]);
    vm_compute; reflexivity.
Defined.

Lemma unknown_type_is_refused_witness :
  handle Sample.env
    (mkHState Sample.srv (Sample.conn_of Sample.lowercase_msg AtEOF) [])
  = (Returned (Some ErrUnrecognizedRequest),
     mkHState Sample.srv
       (conn_after_read (Sample.conn_of Sample.lowercase_msg AtEOF))
       [Inc CounterConnections;
        Printf ("unrecognized request type " ++ dquote ++ "issue" ++ dquote);
        Inc CounterUnknownRequestType]).
Proof.
  apply (@unknown_type_is_refused Sample.env Sample.srv
           (Sample.conn_of Sample.lowercase_msg AtEOF)
           (Sample.envelope Sample.lowercase_inner) Sample.lowercase_req);
    vm_compute; try reflexivity; discriminate.
Defined.

Lemma read_error_is_returned_witness :
  handle Sample.env
    (mkHState Sample.srv
       (Sample.conn_of Sample.issue_msg (ReadFails Sample.conn_reset)) [])
  = (Returned (Some Sample.conn_reset),
     mkHState Sample.srv
       (conn_after_read
          (Sample.conn_of Sample.issue_msg (ReadFails Sample.conn_reset)))
       [Inc CounterConnections; Inc CounterConnErrors]).
Proof.
  apply (@read_error_is_returned Sample.env Sample.srv
           (Sample.conn_of Sample.issue_msg (ReadFails Sample.conn_reset))
           Sample.conn_reset).
  - vm_compute. reflexivity.
  - intros op inner Heq. inversion Heq; subst. vm_compute. discriminate.
Defined.

Lemma no_key_issue_panics_witness :
  handle Sample.env
    (mkHState (set_keys Sample.env Sample.srv [])
       (Sample.conn_of Sample.issue_msg AtEOF) [])
  = (Panicked,
     mkHState (set_keys Sample.env Sample.srv [])
       (conn_after_read (Sample.conn_of Sample.issue_msg AtEOF))
       [Inc CounterConnections; Inc CounterIssueTotal]) /\
  exists err,
    fst (handle Sample.env
           (mkHState (set_keys Sample.env Sample.srv [])
              (Sample.conn_of Sample.redeem_msg AtEOF) []))
    = Returned err /\
    btd_calls
      (h_trace (snd (handle Sample.env
                       (mkHState (set_keys Sample.env Sample.srv [])
                          (Sample.conn_of Sample.redeem_msg AtEOF) []))))
    = [CallRedeem Sample.redeem_req "example.com" "/a" []].
Proof.
  split.
  - apply (proj1 (@no_key_issue_panics Sample.env
                    (set_keys Sample.env Sample.srv [])
                    (Sample.conn_of Sample.issue_msg AtEOF)
                    (Sample.envelope Sample.issue_inner) Sample.issue_req
                    eq_refl eq_refl eq_refl eq_refl)).
    reflexivity.
  - apply (proj2 (@no_key_issue_panics Sample.env
                    (set_keys Sample.env Sample.srv [])
                    (Sample.conn_of Sample.redeem_msg AtEOF)
                    (Sample.envelope Sample.redeem_inner)
                    Sample.redeem_req
                    eq_refl eq_refl eq_refl eq_refl)).
    reflexivity.
Defined.

Lemma redeem_success_adds_nothing_witness :
  fst (handle Sample.env
         (mkHState Sample.srv (Sample.conn_of Sample.redeem_msg AtEOF) []))
  = Returned None /\
  h_conn (snd (handle Sample.env
         (mkHState Sample.srv (Sample.conn_of Sample.redeem_msg AtEOF) [])))
  = rr_conn (HandleRedeem Sample.env
               (conn_after_read (Sample.conn_of Sample.redeem_msg AtEOF))
               Sample.redeem_req "example.com" "/a" (keys Sample.srv)) /\
  incs (h_trace (snd (handle Sample.env
         (mkHState Sample.srv (Sample.conn_of Sample.redeem_msg AtEOF) []))))
  = [CounterConnections; CounterRedeemTotal].
Proof.
  apply (@redeem_success_adds_nothing Sample.env Sample.srv
           (Sample.conn_of Sample.redeem_msg AtEOF)
           (Sample.envelope Sample.redeem_inner)
           Sample.redeem_req);
    vm_compute; reflexivity.
Defined.

Lemma serving_keeps_key_material_witness :
  match ListenAndServe Sample.env Sample.srv
          [Accepted (Sample.conn_of Sample.issue_msg AtEOF);
           AcceptFails Sample.too_many_files true;
           Accepted (Sample.conn_of Sample.bad_redeem_msg AtEOF)] with
  | Running p => p_srv p = Sample.srv
  | Crashed p => p_srv p = Sample.srv
  | ReturnedErr _ => True
  end.
Proof.
  apply (@serving_keeps_key_material Sample.env Sample.srv).
  exact sample_handlers_read_only.
Defined.

Lemma temporary_failures_back_off_witness :
  match ListenAndServe Sample.env Sample.srv
          (repeat (AcceptFails Sample.too_many_files true) 12) with
  | Running p =>
      sleeps (p_trace p) = map sleep_at (seq 0 12) /\
      p_backoff p = backoff_after 12
  | Crashed _ => False
  | ReturnedErr _ => True
  end.
Proof.
  apply (@temporary_failures_back_off Sample.env Sample.srv
           (repeat (AcceptFails Sample.too_many_files true) 12)).
  vm_compute. reflexivity.
Defined.

(** Twelve temporary failures in a row: the waits double from one
    millisecond to 512 and then stay at one second. *)
Example twelve_failures_in_a_row :
  map sleep_at (seq 0 12)
  = [1000000; 2000000; 4000000; 8000000; 16000000; 32000000; 64000000;
     128000000; 256000000; 512000000; 1000000000; 1000000000].
Proof. vm_compute. reflexivity. Qed.

Lemma accepted_connection_resets_backoff_witness :
  exists p1 p2 p,
    ListenAndServe Sample.env Sample.srv
      (repeat (AcceptFails Sample.too_many_files true) 12) = Running p1 /\
    ListenAndServe Sample.env Sample.srv
      (repeat (AcceptFails Sample.too_many_files true) 12
         ++ [Accepted (Sample.conn_of Sample.issue_msg AtEOF)])
    = Running p2 /\
    sleeps (p_trace p2) = sleeps (p_trace p1) /\
    p_backoff p2 = 1 * Millisecond /\
    ListenAndServe Sample.env Sample.srv
      (repeat (AcceptFails Sample.too_many_files true) 12
         ++ [Accepted (Sample.conn_of Sample.issue_msg AtEOF);
             AcceptFails Sample.too_many_files true])
    = Running p /\
    sleeps (p_trace p) = (sleeps (p_trace p1) ++ [1 * Millisecond])%list.
Proof.
  eexists.
  refine ((fun H1 =>
             match @accepted_connection_resets_backoff Sample.env Sample.srv
                     (repeat (AcceptFails Sample.too_many_files true) 12)
                     (Sample.conn_of Sample.issue_msg AtEOF)
                     "accept tcp 127.0.0.1:2416"
                     (errorString "too many open files") _ H1 with
             | ex_intro _ p2 (ex_intro _ p H) =>
                 ex_intro _ p2 (ex_intro _ p (conj H1 H))
             end) _).
  vm_compute. reflexivity.
Defined.

Lemma accept_failure_is_recovered_witness :
  exists p1 p evs,
    ListenAndServe Sample.env Sample.srv
      [Accepted (Sample.conn_of Sample.issue_msg AtEOF)] = Running p1 /\
    ListenAndServe Sample.env Sample.srv
      ([Accepted (Sample.conn_of Sample.issue_msg AtEOF)]
         ++ [AcceptFails (errorString "use of closed network connection") false])
    = Running p /\
    p_trace p
    = (p_trace p1 ++ evs
         ++ [Inc CounterConnErrors;
             Printf "use of closed network connection"])%list /\
    incs evs = [] /\
    p_srv p = p_srv p1 /\
    p_done p = p_done p1 /\
    (temporary_failure
       (AcceptFails (errorString "use of closed network connection") false)
     = false ->
     evs = [] /\ p_backoff p = p_backoff p1).
Proof.
  eexists.
  refine ((fun H1 =>
             match @accept_failure_is_recovered Sample.env Sample.srv
                     [Accepted (Sample.conn_of Sample.issue_msg AtEOF)]
                     (errorString "use of closed network connection") false
                     _ H1 with
             | ex_intro _ p (ex_intro _ evs H) =>
                 ex_intro _ p (ex_intro _ evs (conj H1 H))
             end) _).
  vm_compute. reflexivity.
Defined.

Lemma ListenAndServe_fails_only_at_setup_witness :
  ListenAndServe Sample.env (set_keys Sample.env Sample.srv [])
    [Accepted (Sample.conn_of Sample.issue_msg AtEOF)]
  = ReturnedErr ErrNoSecretKey.
Proof.
  apply (proj1 (proj2 (@ListenAndServe_fails_only_at_setup Sample.env
                         (set_keys Sample.env Sample.srv [])
                         [Accepted (Sample.conn_of Sample.issue_msg AtEOF)]))).
  reflexivity.
Defined.

Lemma loadKeys_only_sets_keys_witness :
  snd (loadKeys Sample.env
         (@mkServer (Point Sample.env) "127.0.0.1" 2416 2417 100
            "keys.pem" "" [] None None))
  = Some ErrEmptyCommPath /\
  ParseKeyFile Sample.env "keys.pem"
  = Ok (keys (fst (loadKeys Sample.env
                     (@mkServer (Point Sample.env) "127.0.0.1" 2416 2417 100
                        "keys.pem" "comm.json" [] None None)))).
Proof.
  split.
  - apply (proj1 (proj2 (proj2 (proj2 (proj2
             (@loadKeys_only_sets_keys Sample.env
                (@mkServer (Point Sample.env) "127.0.0.1" 2416 2417 100
                   "keys.pem" "" [] None None))))))).
    + vm_compute. discriminate.
    + reflexivity.
  - apply (proj1 (proj2 (proj2
             (@loadKeys_only_sets_keys Sample.env
                (@mkServer (Point Sample.env) "127.0.0.1" 2416 2417 100
                   "keys.pem" "comm.json" [] None None))))).
    reflexivity.
Defined.

Lemma serving_server_is_from_flags_witness :
  exists p ks,
    (main Sample.env Sample.flags_good
          [Accepted (Sample.conn_of Sample.issue_msg AtEOF)] = Serving p \/
     main Sample.env Sample.flags_good
          [Accepted (Sample.conn_of Sample.issue_msg AtEOF)] = ServingCrashed p) /\
    flag_config Sample.flags_good = "" /\
    BindAddress (p_srv p) = "127.0.0.1" /\
    ListenPort (p_srv p) = 2416 /\
    MetricsPort (p_srv p) = 2417 /\
    MaxTokens (p_srv p) = 100 /\
    KeyFilePath (p_srv p) = "keys.pem" /\
    CommFilePath (p_srv p) = "comm.json" /\
    ParseKeyFile Sample.env "keys.pem" = Ok ks /\
    List.length (keys (p_srv p)) = List.length ks.
Proof.
  apply (@serving_server_is_from_flags Sample.env Sample.flags_good
           [Accepted (Sample.conn_of Sample.issue_msg AtEOF)]).
  vm_compute. reflexivity.
Defined.

Lemma empty_key_file_panics_witness :
  main Sample.env Sample.flags_empty_keys
       [Accepted (Sample.conn_of Sample.issue_msg AtEOF)]
  = StartupPanic.
Proof.
  refine (@empty_key_file_panics Sample.env Sample.flags_empty_keys
            [Accepted (Sample.conn_of Sample.issue_msg AtEOF)] _ _ _ _);
    vm_compute; try reflexivity; discriminate.
Defined.

(* ================================================================== *)
(** * The loop together with its goroutines *)
(* ================================================================== *)

(** The loop of [acceptLoop] is the schedule in which every goroutine
    runs as soon as it is started. *)
Lemma pool_run_inline_step (E : Env) (p : Process (Point E)) a rest :
  pool_run E (mkPool p []) (inline (a :: rest))
  = match serve E p a with
    | Running p' => pool_run E (mkPool p' []) (inline rest)
    | Crashed p' => Dead p'
    | ReturnedErr _ => pool_run E (mkPool p []) (inline rest)
    end.
Proof.
  destruct a as [conn | e t]; cbn [inline pool_run].
  - cbn [pool_step pool_proc pool_pending app nth_error p_srv p_trace p_done
           p_backoff serve].
    destruct (handle E _) as [[err|] h]; reflexivity.
  - reflexivity.
Qed.

Lemma acceptLoop_is_inline_schedule (E : Env) accepts :
  forall p : Process (Point E),
  match acceptLoop E p accepts with
  | Running p' =>
      pool_run E (mkPool p []) (inline accepts) = Live (mkPool p' [])
  | Crashed p' => pool_run E (mkPool p []) (inline accepts) = Dead p'
  | ReturnedErr _ => False
  end.
Proof.
  induction accepts as [|a rest IH]; intros p; [reflexivity|].
  rewrite pool_run_inline_step. cbn [acceptLoop].
  destruct (serve E p a) as [e | q | q] eqn:Hs.
  - exact (serve_not_returned E p a Hs).
  - apply IH.
  - reflexivity.
Qed.

Lemma remove_nth_length {A : Type} (i : nat) (l : list A) (x : A) :
  nth_error l i = Some x ->
  S (List.length (remove_nth i l)) = List.length l.
Proof.
  revert l. induction i as [|i IH]; intros [|y l] Hn; cbn in Hn;
    try discriminate; unfold remove_nth; cbn [firstn skipn app List.length].
  - reflexivity.
  - f_equal. exact (IH l Hn).
Qed.

Lemma pool_step_accounts (E : Env) (s s' : Pool (Point E)) a n :
  pool_accounts n s ->
  pool_step E s a = Live s' ->
  pool_accounts (n + List.length (accepted (accepts_of [a]))) s'.
Proof.
  intros (Hn & Hcl & Hcnt). destruct s as [p pending].
  cbn [pool_proc pool_pending] in *.
  destruct a as [[conn | e t] | i]; cbn [pool_step pool_proc pool_pending].
  - intros Heq; inversion Heq; subst; clear Heq.
    unfold pool_accounts. cbn [pool_proc pool_pending p_done p_trace accepts_of
                                 accepted List.length].
    rewrite length_app. cbn [List.length]. repeat split; try assumption. lia.
  - cbn [serve]. intros Heq; inversion Heq; subst; clear Heq.
    unfold pool_accounts. cbn [pool_proc pool_pending p_done p_trace accepts_of
                                 accepted List.length].
    repeat split; try assumption; [lia|].
    rewrite !incs_app, !count_occ_app.
    destruct (match e with OpError _ _ => t | errorString _ => false end);
      cbn; lia.
  - cbn [accepts_of accepted List.length]. rewrite Nat.add_0_r.
    destruct (nth_error pending i) as [c|] eqn:Hnth.
    + pose proof (handle_incs_connections E (p_srv p) c (p_trace p)) as Hc.
      destruct (handle E _) as [[err|] h]; [|discriminate].
      intros Heq; inversion Heq; subst; clear Heq.
      unfold pool_accounts. cbn [pool_proc pool_pending p_done p_trace snd] in *.
      pose proof (@remove_nth_length _ i pending _ Hnth) as Hlen.
      rewrite length_app. cbn [List.length].
      split; [lia|]. split.
      * apply Forall_app. split; [exact Hcl|]. repeat constructor.
      * rewrite incs_app, count_occ_app, Hc, Hcnt.
        destruct err; cbn; lia.
    + intros Heq; inversion Heq; subst. repeat split; assumption.
Qed.

Lemma pool_run_accounts (E : Env) actions :
  forall (s s' : Pool (Point E)) n,
  pool_accounts n s ->
  pool_run E s actions = Live s' ->
  pool_accounts (n + List.length (accepted (accepts_of actions))) s'.
Proof.
  induction actions as [|a rest IH]; intros s s' n Hs Hrun; cbn [pool_run] in Hrun.
  - inversion Hrun; subst. cbn. rewrite Nat.add_0_r. exact Hs.
  - destruct (pool_step E s a) as [s1|p1] eqn:Hstep; [|discriminate].
    pose proof (@pool_step_accounts E _ _ _ _ Hs Hstep) as H1.
    pose proof (IH _ _ _ H1 Hrun) as H2.
    replace (n + List.length (accepted (accepts_of (a :: rest))))%nat
      with (n + List.length (accepted (accepts_of [a]))
            + List.length (accepted (accepts_of rest)))%nat; [exact H2|].
    destruct a as [[conn | e t] | i]; cbn; lia.
Qed.

Lemma ListenAndServe_starts_empty (E : Env) (c : Server (Point E)) p0 :
  ListenAndServe E c [] = Running p0 ->
  pool_accounts 0 (mkPool p0 []).
Proof.
  unfold ListenAndServe.
  destruct (len (keys c) =? 0); [discriminate|].
  destruct (net_ResolveTCPAddr E _) as [tcpAddr|e]; [|discriminate].
  destruct (net_ListenTCP E tcpAddr) as [e|]; [discriminate|].
  cbn [acceptLoop]. intros Heq; inversion Heq; subst; clear Heq.
  unfold pool_accounts. cbn. repeat split. constructor.
Qed.


(** X12: once every goroutine started has run, in whatever order,
    [CounterConnections] has been incremented exactly once for each
    connection accepted, and not for the failures of [AcceptTCP]. *)
Theorem connections_counter_at_rest (E : Env) (c : Server (Point E))
    (p0 : Process (Point E)) (actions : list Action) (s : Pool (Point E)) :
  ListenAndServe E c [] = Running p0 ->
  pool_run E (mkPool p0 []) actions = Live s ->
  pool_pending s = [] ->
  count_occ Counter_eq_dec (incs (p_trace (pool_proc s))) CounterConnections
  = List.length (accepted (accepts_of actions)).
Proof.
  intros H0 Hrun Hnil.
  destruct (@pool_run_accounts E actions _ _ _ (@ListenAndServe_starts_empty E c p0 H0) Hrun)
    as (Hn & _ & Hcnt).
  cbn [Nat.add] in Hn. rewrite Hnil in Hn. cbn in Hn. lia.
Qed.


Lemma connections_counter_at_rest_witness :
  ListenAndServe Sample.env Sample.srv [] = Running Sample.process_start /\
  pool_run Sample.env (mkPool Sample.process_start []) Sample.schedule
  = Live Sample.pool_end /\
  pool_pending Sample.pool_end = [] /\
  count_occ Counter_eq_dec (incs (p_trace (pool_proc Sample.pool_end)))
    CounterConnections
  = List.length (accepted (accepts_of Sample.schedule)).
Proof.
  assert (H0 : ListenAndServe Sample.env Sample.srv []
               = Running Sample.process_start)
    by (vm_compute; reflexivity).
  assert (Hrun : pool_run Sample.env (mkPool Sample.process_start [])
                   Sample.schedule = Live Sample.pool_end)
    by (vm_compute; reflexivity).
  assert (Hnil : pool_pending Sample.pool_end = []) by reflexivity.
  exact (conj H0
           (conj Hrun
              (conj Hnil
                 (@connections_counter_at_rest Sample.env Sample.srv
                    Sample.process_start Sample.schedule Sample.pool_end
                    H0 Hrun Hnil)))).
Defined.
